(** * denite-git: the [gitstatus] source and kind

    A shallow embedding of [rplugin/python3/denite/source/gitstatus.py]
    together with the parts of the Python runtime it calls
    ([posixpath], [shlex], [subprocess], [str], [re]).

    Python text is a sequence of Unicode code points; a one-character
    string such as [line[0]] is a code point.  Exceptions are values of
    [exn] carried by [result].  Everything the module asks of its host
    (the editor, the user, the process table, the filesystem) is an
    explicit oracle, and everything it does to the host is recorded in a
    trace of [effect]s. *)

From Stdlib Require Import List String Ascii NArith ZArith Bool Arith Lia.
Import ListNotations.

Set Implicit Arguments.

(** ** Python values *)

Module Py.

(** A code point, and text as Python's [str]. *)
Definition char := N.
Definition str := list char.

(** An ASCII literal as text. *)
Definition lit (s : string) : str :=
  List.map N_of_ascii (list_ascii_of_string s).

Definition char_eqb (a b : char) : bool := N.eqb a b.

Fixpoint str_eqb (a b : str) : bool :=
  match a, b with
  | [], [] => true
  | x :: a', y :: b' => char_eqb x y && str_eqb a' b'
  | _, _ => false
  end.

(** The exceptions that the modelled code can raise. *)
Inductive exn : Type :=
| IndexError
| KeyError (key : char)
| ValueError (msg : string)
| OSError
| CalledProcessError (returncode : Z)
| UnicodeDecodeError.

Inductive result (A : Type) : Type :=
| Ok (a : A)
| Raise (e : exn).
Arguments Raise {A} e.

Definition rbind {A B} (r : result A) (k : A -> result B) : result B :=
  match r with
  | Ok a => k a
  | Raise e => Raise e
  end.

(** [s[i]] for a non-negative index: [IndexError] past the end. *)
Definition getitem (s : str) (i : nat) : result char :=
  match nth_error s i with
  | Some c => Ok c
  | None => Raise IndexError
  end.

(** [s[i:]] for a non-negative index: slicing never raises. *)
Definition slice_from (i : nat) (s : str) : str := skipn i s.

(** [x in xs] on a list of strings. *)
Definition str_in (x : str) (xs : list str) : bool := existsb (str_eqb x) xs.

(** [s.startswith(c)] and [s.endswith(c)] for a one-character [c]. *)
Definition startswith (c : char) (s : str) : bool :=
  match s with
  | x :: _ => char_eqb x c
  | [] => false
  end.

Fixpoint endswith (c : char) (s : str) : bool :=
  match s with
  | [] => false
  | [x] => char_eqb x c
  | _ :: r => endswith c r
  end.

(** [s.rstrip(c)]: drop the trailing run of [c]. *)
Fixpoint rstrip (c : char) (s : str) : str :=
  match s with
  | [] => []
  | x :: r =>
      match rstrip c r with
      | [] => if char_eqb x c then [] else [x]
      | r' => x :: r'
      end
  end.

(** [s.rfind(c) + 1]: one past the last occurrence of [c], 0 when there
    is none ([rfind] answers -1 then).  [i] is the index of the head of
    [s] in the whole string, [last] the answer so far. *)
Fixpoint rfind_succ_from (c : char) (i last : nat) (s : str) : nat :=
  match s with
  | [] => last
  | x :: r => rfind_succ_from c (S i) (if char_eqb x c then S i else last) r
  end.

Definition rfind_succ (c : char) (s : str) : nat := rfind_succ_from c 0 0 s.

(** [s.split(c)]: the pieces between occurrences of [c]; never empty. *)
Fixpoint split (c : char) (s : str) : list str :=
  match s with
  | [] => [[]]
  | x :: r =>
      if char_eqb x c then [] :: split c r
      else match split c r with
           | p :: ps => (x :: p) :: ps
           | [] => [[x]]
           end
  end.

(** [sep.join(xs)]. *)
Fixpoint join_with (sep : str) (xs : list str) : str :=
  match xs with
  | [] => []
  | [x] => x
  | x :: r => x ++ sep ++ join_with sep r
  end.

(** [s.ljust(w)]: pad with spaces on the right up to width [w]. *)
Definition ljust (w : nat) (s : str) : str :=
  s ++ repeat 32%N (w - List.length s).

(** [ch.isspace()] as the [re] module's [\s] sees it on text: the ASCII
    white space (with the separators 0x1C-0x1F) and the Unicode white
    space. *)
Definition isspace (c : char) : bool :=
  ((9 <=? c) && (c <=? 13) || (28 <=? c) && (c <=? 32)
   || (c =? 133) || (c =? 160) || (c =? 5760)
   || (8192 <=? c) && (c <=? 8202)
   || (c =? 8232) || (c =? 8233) || (c =? 8239) || (c =? 8287)
   || (c =? 12288))%N.

End Py.

Import Py.

Declare Scope py_scope.
Delimit Scope py_scope with py.
Notation "x <-! r ;; k" := (rbind r (fun x => k))
  (at level 61, r at next level, right associativity) : py_scope.
Local Open Scope py_scope.

(** ** [posixpath] *)

Module PosixPath.

Definition sep : char := 47%N.
Definition curdir : str := lit ".".
Definition pardir : str := lit "..".

Definition isabs (s : str) : bool := startswith sep s.

(** One round of the loop of [join(a, *p)]: [path] so far, next part [b]. *)
Definition join_step (path b : str) : str :=
  if startswith sep b then b
  else if match path with [] => true | _ => false end || endswith sep path
       then path ++ b
       else path ++ sep :: b.

Definition join (a : str) (p : list str) : str := fold_left join_step p a.

(** [dirname(p)]: everything up to the last slash, without the trailing
    slashes unless nothing else is left. *)
Definition dirname (p : str) : str :=
  let i := rfind_succ sep p in
  let head := firstn i p in
  if match head with [] => false | _ => true end
     && negb (forallb (char_eqb sep) head)
  then rstrip sep head
  else head.

(** [normpath(path)]. *)
Definition initial_slashes (path : str) : nat :=
  match path with
  | a :: b :: c :: _ =>
      if char_eqb a sep
      then if char_eqb b sep && negb (char_eqb c sep) then 2 else 1
      else 0
  | [a; b] =>
      if char_eqb a sep then if char_eqb b sep then 2 else 1 else 0
  | [a] => if char_eqb a sep then 1 else 0
  | [] => 0
  end.

Definition is_nil {A} (l : list A) : bool :=
  match l with [] => true | _ => false end.

Definition normpath_step (slashes : nat) (new_comps : list str) (comp : str)
  : list str :=
  if str_in comp [[]; curdir] then new_comps
  else if negb (str_eqb comp pardir)
          || (Nat.eqb slashes 0 && is_nil new_comps)
          || (negb (is_nil new_comps) && str_eqb (last new_comps []) pardir)
       then new_comps ++ [comp]
       else if negb (is_nil new_comps) then removelast new_comps
            else new_comps.

Definition normpath (path : str) : str :=
  match path with
  | [] => curdir
  | _ =>
      let slashes := initial_slashes path in
      let comps := fold_left (normpath_step slashes) (split sep path) [] in
      let path' := repeat sep slashes ++ join_with [sep] comps in
      match path' with [] => curdir | _ => path' end
  end.

(** [abspath(path)]; [cwd] is what [os.getcwd()] answers. *)
Definition abspath (cwd path : str) : str :=
  normpath (if isabs path then path else join cwd [path]).

(** [commonprefix] of two lists of components: their longest common
    prefix. *)
Fixpoint commonprefix (a b : list str) : list str :=
  match a, b with
  | x :: a', y :: b' => if str_eqb x y then x :: commonprefix a' b' else []
  | _, _ => []
  end.

Definition components (p : str) : list str :=
  filter (fun x => negb (is_nil x)) (split sep p).

(** [relpath(path, start)]. *)
Definition relpath (cwd path start : str) : result str :=
  match path with
  | [] => Raise (ValueError "no path specified")
  | _ =>
      let start_list := components (abspath cwd start) in
      let path_list := components (abspath cwd path) in
      let i := List.length (commonprefix start_list path_list) in
      let rel_list :=
        repeat pardir (List.length start_list - i) ++ skipn i path_list in
      match rel_list with
      | [] => Ok curdir
      | a :: p => Ok (join a p)
      end
  end.

End PosixPath.

(** ** [shlex.split] in POSIX mode

    [shlex.split(s)] runs the lexer with [posix=True],
    [whitespace_split=True] and no comment characters, and collects its
    tokens until the end of input.  The lexer is a state machine over
    the characters; its states are [' '] (between tokens), ['a'] (in a
    word), a quote character (inside quotes) and the escape character
    (after a backslash), the last with the state to come back to. *)

Module Shlex.

Definition whitespace : list char := [32; 9; 13; 10]%N.
Definition quotes : list char := [39; 34]%N.
Definition escape : list char := [92]%N.
Definition escapedquotes : list char := [34]%N.

Definition mem (c : char) (cs : list char) : bool := existsb (char_eqb c) cs.

Inductive state : Type :=
| Between
| InWord
| InQuote (q : char)
| Escaped (esc : char) (escapedstate : option char).

(** The lexer's registers: its state, the token under construction,
    whether the token had a quoted part, and the tokens given out. *)
Record lexer : Type := {
  st : state;
  token : str;
  quoted : bool;
  out : list str
}.

Definition init : lexer :=
  {| st := Between; token := []; quoted := false; out := [] |}.

(** Give out the current token if there is one (an empty token counts
    when it was quoted), and go between tokens. *)
Definition emit (l : lexer) : lexer :=
  if negb (PosixPath.is_nil (token l)) || quoted l
  then {| st := Between; token := []; quoted := false;
          out := out l ++ [token l] |}
  else {| st := Between; token := token l; quoted := quoted l; out := out l |}.

(** One character of input. *)
Definition step (l : lexer) (c : char) : lexer :=
  match st l with
  | Between =>
      if mem c whitespace then emit l
      else if mem c escape
      then {| st := Escaped c None; token := token l; quoted := quoted l;
              out := out l |}
      else if mem c quotes
      then {| st := InQuote c; token := token l; quoted := quoted l;
              out := out l |}
      else {| st := InWord; token := [c]; quoted := quoted l; out := out l |}
  | InQuote q =>
      if char_eqb c q
      then {| st := InWord; token := token l; quoted := true; out := out l |}
      else if mem c escape && mem q escapedquotes
      then {| st := Escaped c (Some q); token := token l; quoted := true;
              out := out l |}
      else {| st := InQuote q; token := token l ++ [c]; quoted := true;
              out := out l |}
  | Escaped esc back =>
      let keep :=
        match back with
        | Some q => negb (char_eqb c esc) && negb (char_eqb c q)
        | None => false
        end in
      {| st := match back with Some q => InQuote q | None => InWord end;
         token := token l ++ (if keep then [esc] else []) ++ [c];
         quoted := quoted l; out := out l |}
  | InWord =>
      if mem c whitespace then emit l
      else if mem c quotes
      then {| st := InQuote c; token := token l; quoted := quoted l;
              out := out l |}
      else if mem c escape
      then {| st := Escaped c None; token := token l; quoted := quoted l;
              out := out l |}
      else {| st := InWord; token := token l ++ [c]; quoted := quoted l;
              out := out l |}
  end.

(** The end of input. *)
Definition finish (l : lexer) : result (list str) :=
  match st l with
  | InQuote _ => Raise (ValueError "No closing quotation")
  | Escaped _ _ => Raise (ValueError "No escaped character")
  | Between | InWord => Ok (out (emit l))
  end.

Definition split (s : str) : result (list str) :=
  finish (fold_left step s init).

End Shlex.

(** ** [bytes.decode('utf-8')] and [subprocess.run] *)

Module Subprocess.

Definition bytes := list N.

Definition cont (b : N) : bool := ((128 <=? b) && (b <=? 191))%N.
Definition within (lo hi b : N) : bool := ((lo <=? b) && (b <=? hi))%N.

(** Strict UTF-8: shortest forms only, no surrogates, nothing above
    U+10FFFF. *)
Fixpoint decode_utf8 (bs : bytes) : result str :=
  match bs with
  | [] => Ok []
  | b0 :: r0 =>
      if (b0 <? 128)%N then s <-! decode_utf8 r0 ;; Ok (b0 :: s)
      else if within 194 223 b0 then
        match r0 with
        | b1 :: r1 =>
            if cont b1
            then s <-! decode_utf8 r1 ;;
                 Ok (((b0 - 192) * 64 + (b1 - 128))%N :: s)
            else Raise UnicodeDecodeError
        | _ => Raise UnicodeDecodeError
        end
      else if within 224 239 b0 then
        match r0 with
        | b1 :: b2 :: r2 =>
            if within (if (b0 =? 224)%N then 160 else 128)
                      (if (b0 =? 237)%N then 159 else 191) b1 && cont b2
            then s <-! decode_utf8 r2 ;;
                 Ok (((b0 - 224) * 4096 + (b1 - 128) * 64 + (b2 - 128))%N :: s)
            else Raise UnicodeDecodeError
        | _ => Raise UnicodeDecodeError
        end
      else if within 240 244 b0 then
        match r0 with
        | b1 :: b2 :: b3 :: r3 =>
            if within (if (b0 =? 240)%N then 144 else 128)
                      (if (b0 =? 244)%N then 143 else 191) b1
               && cont b2 && cont b3
            then s <-! decode_utf8 r3 ;;
                 Ok (((b0 - 240) * 262144 + (b1 - 128) * 4096
                      + (b2 - 128) * 64 + (b3 - 128))%N :: s)
            else Raise UnicodeDecodeError
        | _ => Raise UnicodeDecodeError
        end
      else Raise UnicodeDecodeError
  end.

(** ASCII text as bytes, for examples. *)
Definition ascii_bytes (s : string) : bytes := lit s.

(** What became of a child process: it could not be started, or it ran
    and exited with a status, having written [output] to the pipe that
    collects standard output and standard error. *)
Inductive outcome : Type :=
| NotStarted
| Exited (status : Z) (output : bytes).

Record CompletedProcess : Type := {
  returncode : Z;
  stdout : bytes
}.

(** [subprocess.run(..., check=check)]: [OSError] when the program
    cannot be started; [CalledProcessError] only when [check] is set and
    the status is not zero. *)
Definition run (check : bool) (o : outcome) : result CompletedProcess :=
  match o with
  | NotStarted => Raise OSError
  | Exited rc output =>
      if check && negb (Z.eqb rc 0) then Raise (CalledProcessError rc)
      else Ok {| returncode := rc; stdout := output |}
  end.

End Subprocess.

(** ** The host: what the module asks of its surroundings and does to them *)

(** What the module does to its host, in order. *)
Inductive effect : Type :=
| Spawned (argv : list str) (cwd : str)
| Asked (prompt default : str)
| VimCommand (cmd : str)
| VimCall (fn : str) (args : list str)
| Printed (msg : str).

(** What the host answers.  The answers of the process table and of the
    user may depend on everything that happened before. *)
Record host : Type := {
  (* the fate of a child process started with this argument vector in
     this directory *)
  spawn : list effect -> list str -> str -> Subprocess.outcome;
  (* [denite.util.input]: the user's reply to a prompt *)
  reply : list effect -> str -> str -> str;
  (* [vim.eval] of an expression *)
  vim_eval : str -> str;
  (* [os.getcwd()] *)
  os_getcwd : str;
  (* [os.path.isdir] and [os.path.ismount] *)
  isdir : str -> bool;
  ismount : str -> bool
}.

(** Computations that may raise and that extend the trace; the trace
    written before an exception stays. *)
Definition M (A : Type) : Type := list effect -> result A * list effect.

Definition ret {A} (a : A) : M A := fun t => (Ok a, t).

Definition bind {A B} (m : M A) (k : A -> M B) : M B :=
  fun t =>
    match m t with
    | (Ok a, t') => k a t'
    | (Raise e, t') => (Raise e, t')
    end.

Definition lift {A} (r : result A) : M A := fun t => (r, t).

Definition emit (e : effect) : M unit := fun t => (Ok tt, t ++ [e]).

Notation "x <- m ;; k" := (bind m (fun x => k))
  (at level 61, m at next level, right associativity) : py_scope.
Notation "m ;;; k" := (bind m (fun _ => k))
  (at level 61, right associativity) : py_scope.

(** [for x in xs: body(x)]. *)
Fixpoint for_each {A} (xs : list A) (body : A -> M unit) : M unit :=
  match xs with
  | [] => ret tt
  | x :: r => body x ;;; for_each r body
  end.

(** ** [gitstatus.py] *)

(** [EMPTY_LINE = re.compile(r"^\s*$")], used through [fullmatch]: the
    whole line is white space. *)
Definition EMPTY_LINE (line : str) : bool := forallb isspace line.

(** [STATUS_MAP], in the order it is written. *)
Definition STATUS_MAP : list (char * (str * str)) :=
  [ (32%N, (lit " ", []));
    (77%N, (lit "~", lit "modified"));
    (65%N, (lit "+", lit "added"));
    (68%N, (lit "-", lit "deleted"));
    (82%N, ([8594%N], lit "renamed"));
    (67%N, (lit "C", lit "copied"));
    (85%N, (lit "U", lit "updated"));
    (63%N, (lit "?", lit "untracked")) ].

(** [d[k]] on a dict written as its items: [KeyError] on a missing key. *)
Fixpoint dict_getitem {V} (d : list (char * V)) (k : char) : result V :=
  match d with
  | [] => Raise (KeyError k)
  | (k', v) :: r => if char_eqb k' k then Ok v else dict_getitem r k
  end.

(** [_find_root(path)].  The loop has no bound of its own, so the model
    takes one: [None] says the loop is still running after [fuel]
    rounds, [Some r] that it returned [r]. *)
Fixpoint _find_root (h : host) (fuel : nat) (path : str)
  : option (option str) :=
  match fuel with
  | O => None
  | S fuel' =>
      if str_eqb path (lit "/") || ismount h path then Some None
      else
        let p := PosixPath.join path [lit ".git"] in
        if isdir h p then Some (Some path)
        else _find_root h fuel' (PosixPath.dirname path)
  end.

(** A candidate: the dict [_parse_line] returns. *)
Record candidate : Type := {
  word : str;
  action__path : str;
  source__root : str;
  source__staged : bool;
  source__tree : bool
}.

Definition _parse_line (line root : str) : result candidate :=
  let path := PosixPath.join root [slice_from 3 line] in
  c0 <-! getitem line 0 ;;
  index <-! dict_getitem STATUS_MAP c0 ;;
  let '(index_symbol, index_desc) := index in
  c1 <-! getitem line 1 ;;
  tree <-! dict_getitem STATUS_MAP c1 ;;
  let '(tree_symbol, tree_desc0) := tree in
  let tree_desc := if str_eqb tree_desc0 index_desc then [] else tree_desc0 in
  let word :=
    index_symbol ++ tree_symbol ++ lit " " ++ ljust 12 index_desc ++ lit " "
    ++ ljust 12 tree_desc ++ lit " " ++ slice_from 3 line in
  Ok {| word := word;
        action__path := path;
        source__root := root;
        source__staged := negb (str_in index_symbol [lit " "; lit "?"]);
        source__tree := negb (str_in tree_symbol [lit " "; lit "?"]) |}.

(** [run_command(commands, cwd)].  [subprocess.run] is called without
    [check], so [check] is false. *)
Definition run_command (h : host) (commands : list str) (cwd : str)
  : M (list str) :=
  fun t =>
    let t' := t ++ [Spawned commands cwd] in
    match Subprocess.run false (spawn h t commands cwd) with
    | Raise (CalledProcessError _) => (Ok [], t')
    | Raise e => (Raise e, t')
    | Ok p =>
        (s <-! Subprocess.decode_utf8 (Subprocess.stdout p) ;;
         Ok (split 10%N s), t')
    end.

(** [Source.on_init]: the value stored under [context['__root']]. *)
Definition on_init (h : host) (fuel : nat) : option (option str) :=
  let cwd := PosixPath.normpath (vim_eval h (lit "getcwd()")) in
  _find_root h fuel cwd.

(** The loop of [Source.gather_candidates] over the lines, with the list
    [candidates] it appends to. *)
Fixpoint gather_lines (root : str) (lines : list str)
  (candidates : list candidate) : result (list candidate) :=
  match lines with
  | [] => Ok candidates
  | line :: rest =>
      if EMPTY_LINE line then gather_lines root rest candidates
      else
        c <-! _parse_line line root ;;
        gather_lines root rest (candidates ++ [c])
  end.

(** [Source.gather_candidates(context)], with [root = context['__root']];
    [not root] holds of [None] and of the empty string. *)
Definition gather_candidates (h : host) (root : option str)
  : M (list candidate) :=
  match root with
  | None | Some [] => ret []
  | Some root =>
      let args := [lit "git"; lit "status"; lit "--porcelain"; lit "-uall"] in
      emit (Printed (join_with (lit " ") args)) ;;;
      lines <- run_command h args root ;;
      lift (gather_lines root lines [])
  end.

(** [util.input(self.vim, context, prompt, default)]. *)
Definition util_input (h : host) (prompt default : str) : M str :=
  fun t => (Ok (reply h t prompt default), t ++ [Asked prompt default]).

(** [Kind.__init__]: how to remove a file, from what the editor has. *)
Definition Kind_remove (exists_Rm : Z) (executable_rmtrash : bool) : str :=
  if Z.eqb exists_Rm 2 then lit "rm"
  else if executable_rmtrash then lit "rmtrash"
  else lit "delete".

(** [context['targets'][0]]. *)
Definition first_target (targets : list candidate) : result candidate :=
  match targets with
  | t :: _ => Ok t
  | [] => Raise IndexError
  end.

(** The loop of [action_patch] and [action_add]: the list [args] after
    the relative path of every target was appended. *)
Fixpoint append_relpaths (h : host) (root : str) (targets : list candidate)
  (args : list str) : result (list str) :=
  match targets with
  | [] => Ok args
  | target :: rest =>
      let filepath := action__path target in
      p <-! PosixPath.relpath (os_getcwd h) filepath root ;;
      append_relpaths h root rest (args ++ [p])
  end.

Definition action_patch (h : host) (targets : list candidate) : M unit :=
  first <- lift (first_target targets) ;;
  let root := source__root first in
  args <- lift (append_relpaths h root targets []) ;;
  emit (VimCommand (lit "terminal git add " ++ join_with (lit " ") args
                    ++ lit " --patch")).

Definition action_add (h : host) (targets : list candidate) : M unit :=
  first <- lift (first_target targets) ;;
  let root := source__root first in
  args <- lift (append_relpaths h root targets [lit "git"; lit "add"]) ;;
  run_command h args root ;;;
  ret tt.

(** [run_command(shlex.split(args), root)]. *)
Definition run_split (h : host) (args root : str) : M unit :=
  argv <- lift (Shlex.split args) ;;
  run_command h argv root ;;;
  ret tt.

(** The body of the loop of [action_reset], for one target. *)
Definition action_reset_target (h : host) (remove cwd : str)
  (target : candidate) : M unit :=
  let filepath := action__path target in
  let root := source__root target in
  path <- lift (PosixPath.relpath (os_getcwd h) filepath root) ;;
  (if source__tree target && source__staged target then
     res <- util_input h (lit "Select action reset or checkout [r/c]") [] ;;
     if str_eqb res (lit "c") then
       run_split h (lit "git checkout -- " ++ path) root
     else if str_eqb res (lit "r") then
       run_split h (lit "git reset HEAD -- " ++ path) root
     else ret tt
   else if source__tree target then
     run_split h (lit "git checkout -- " ++ path) root
   else if source__staged target then
     run_split h (lit "git reset HEAD -- " ++ path) root
   else
     if str_eqb remove (lit "rm") then
       p <- lift (PosixPath.relpath (os_getcwd h) filepath cwd) ;;
       emit (VimCommand (lit "Rm " ++ p))
     else if str_eqb remove (lit "rmtrash") then
       run_command h [lit "rmtrash"; filepath] root ;;;
       ret tt
     else emit (VimCall (lit "delete") [filepath])) ;;;
  emit (VimCommand (lit "checktime")).

(** The expression [expand("%:p:h")]: the directory of the current
    buffer. *)
Definition expand_bufdir : str :=
  lit "expand(" ++ [34%N] ++ lit "%:p:h" ++ [34%N] ++ lit ")".

Definition action_reset (h : host) (remove : str) (targets : list candidate)
  : M unit :=
  let cwd := PosixPath.normpath (vim_eval h expand_bufdir) in
  for_each targets (action_reset_target h remove cwd).

(** [a == b] on candidates: two dicts are equal when all their items
    are. *)
Definition candidate_eqb (a b : candidate) : bool :=
  str_eqb (word a) (word b)
  && str_eqb (action__path a) (action__path b)
  && str_eqb (source__root a) (source__root b)
  && Bool.eqb (source__staged a) (source__staged b)
  && Bool.eqb (source__tree a) (source__tree b).

(** [Kind.action_delete], the diff preview.  [preview_window] says
    whether the editor has a preview window (what
    [__get_preview_window] finds), [previewed] is
    [self._previewed_target] ([None] while it holds no candidate) and
    the result is its value afterwards; [prev_id] is the window
    identifier that [win_getid] answers, written as text. *)
Definition action_delete (h : host) (preview_window : bool)
  (previewed : option candidate) (prev_id : str) (targets : list candidate)
  : M (option candidate) :=
  target <- lift (first_target targets) ;;
  let root := source__root target in
  if preview_window
     && match previewed with
        | Some p => candidate_eqb p target
        | None => false
        end
  then
    emit (VimCommand (lit "pclose!")) ;;;
    ret previewed
  else
    relpath <- lift (PosixPath.relpath (os_getcwd h) (action__path target)
                       root) ;;
    prefix <-
      (if source__staged target then
         if source__tree target then
           res <- util_input h (lit "Diff cached?[y/n]") (lit "y") ;;
           ret (if str_eqb res (lit "y") then lit "--cached " else [])
         else ret (lit "--cached ")
       else ret []) ;;
    emit (VimCall (lit "win_getid") []) ;;;
    emit (VimCall (lit "easygit#diffPreview") [prefix ++ relpath]) ;;;
    emit (VimCall (lit "win_gotoid") [prev_id]) ;;;
    ret (Some target).

(** [Kind.action_commit].  [exists_Gcommit] is what
    [vim.call('exists', ':Gcommit')] answers; a number other than zero
    is true. *)
Definition action_commit (h : host) (exists_Gcommit : Z)
  (targets : list candidate) : M unit :=
  first <- lift (first_target targets) ;;
  let root := source__root first in
  message <- util_input h (lit "Commit message: ") [] ;;
  let args := [lit "-v"; lit "-m"; message] in
  if negb (Z.eqb exists_Gcommit 0) then
    emit (VimCommand (lit "Gcommit " ++ join_with (lit " ") args))
  else
    args' <- lift (append_relpaths h root targets args) ;;
    emit (VimCall (lit "easygit#commit") [join_with (lit " ") args']).

(** ** Words of the specification, as definitions *)

(** A status character that stands for a change: neither [' '] nor ['?']. *)
Definition is_change (c : char) : bool :=
  negb (char_eqb c 32%N) && negb (char_eqb c 63%N).

(** A status character of the fixed table. *)
Definition known_code (c : char) : bool :=
  existsb (fun kv => char_eqb (fst kv) c) STATUS_MAP.

(** A line that starts with two status characters of the table. *)
Definition two_known_codes (line : str) : bool :=
  match line with
  | i :: t :: _ => known_code i && known_code t
  | _ => false
  end.

Definition raises {A} (r : result A) : bool :=
  match r with
  | Raise _ => true
  | Ok _ => false
  end.

Definition nonblank (line : str) : bool := negb (EMPTY_LINE line).

(** Parse every line of a list, first error first. *)
Fixpoint parse_all (root : str) (lines : list str) : result (list candidate) :=
  match lines with
  | [] => Ok []
  | line :: rest =>
      c <-! _parse_line line root ;;
      cs <-! parse_all root rest ;;
      Ok (c :: cs)
  end.

(** What the reset action does with one target, in the words of the
    specification. *)
Inductive decision : Type :=
| AskUser
| Reset
| Checkout
| Delete.

Definition reset_decision (staged modified_in_tree : bool) : decision :=
  match staged, modified_in_tree with
  | true, true => AskUser
  | true, false => Reset
  | false, true => Checkout
  | false, false => Delete
  end.

Definition reset_prompt : str := lit "Select action reset or checkout [r/c]".

(** A piece of a split path holds no slash. *)
Definition slash_free (x : str) : bool :=
  forallb (fun c => negb (char_eqb c PosixPath.sep)) x.

(** A name of a path: not empty, no slash. *)
Definition is_name (x : str) : bool :=
  negb (PosixPath.is_nil x) && slash_free x.

(** The walk of the root lookup: the [k]-th directory above [p]. *)
Fixpoint ancestor (k : nat) (p : str) : str :=
  match k with
  | O => p
  | S k' => ancestor k' (PosixPath.dirname p)
  end.

(** One past the last slash of [s], by recursion on [s]: what
    [s.rfind('/') + 1] is. *)
Fixpoint last_sep (s : str) : nat :=
  match s with
  | [] => 0
  | x :: r =>
      match last_sep r with
      | O => if char_eqb x PosixPath.sep then 1 else 0
      | S k => S (S k)
      end
  end.

(** The part of [s] up to its last slash. *)
Definition head_of (s : str) : str := firstn (last_sep s) s.

(** Where the lookup gives up: the root directory and the mount points. *)
Definition boundary (h : host) (p : str) : bool :=
  str_eqb p (lit "/") || ismount h p.

(** A directory that holds the repository's metadata. *)
Definition has_git (h : host) (p : str) : bool :=
  isdir h (PosixPath.join p [lit ".git"]).

(** ** Hosts for the examples *)

(** A path made of slashes only: a spelling of the root directory. *)
Definition all_slashes (p : str) : bool :=
  negb (PosixPath.is_nil p) && forallb (char_eqb PosixPath.sep) p.

(** The filesystem reports the root directory as a mount point under
    each of its spellings ([os.path.ismount] compares a directory with
    its parent, and the root directory is its own parent). *)
Definition root_mounted (h : host) : Prop :=
  forall p, all_slashes p = true -> ismount h p = true.

(** A host where every child process ends the same way, the user always
    gives the same answer, the directories that exist are [dirs] and the
    mount points are the root directory and [mounts]. *)
Definition sample_host (o : Subprocess.outcome) (answer : str)
  (dirs mounts : list str) : host :=
  {| spawn := fun _ _ _ => o;
     reply := fun _ _ _ => answer;
     vim_eval := fun _ => lit "/repo";
     os_getcwd := lit "/repo";
     isdir := fun p => str_in p dirs;
     ismount := fun p => all_slashes p || str_in p mounts |}.

(** A host where every command succeeds without output and the user
    answers [q] to every prompt. *)
Definition calm_host : host :=
  sample_host (Subprocess.Exited 0 []) (lit "q") [] [].

(** A candidate of the repository at [/repo]. *)
Definition sample_target (path : string) (staged tree : bool) : candidate :=
  {| word := [];
     action__path := lit path;
     source__root := lit "/repo";
     source__staged := staged;
     source__tree := tree |}.

Definition status_args : list str :=
  [lit "git"; lit "status"; lit "--porcelain"; lit "-uall"].

(** A character that [shlex] takes as it is: no white space, no quote,
    no backslash. *)
Definition plain (c : char) : bool :=
  negb (Shlex.mem c Shlex.whitespace)
  && negb (Shlex.mem c Shlex.quotes)
  && negb (Shlex.mem c Shlex.escape).

(** The display symbol and the label of a status character; empty
    for a character that is not in the table. *)
Definition symbol_of (c : char) : str :=
  match dict_getitem STATUS_MAP c with
  | Ok (symbol, _) => symbol
  | Raise _ => []
  end.

Definition label_of (c : char) : str :=
  match dict_getitem STATUS_MAP c with
  | Ok (_, label) => label
  | Raise _ => []
  end.

(** The message that the listing prints. *)
Definition status_message : str := lit "git status --porcelain -uall".

(** Equality of argument vectors. *)
Fixpoint strs_eqb (a b : list str) : bool :=
  match a, b with
  | [], [] => true
  | x :: a', y :: b' => str_eqb x y && strs_eqb a' b'
  | _, _ => false
  end.

(** An argument vector that begins [git checkout --] or
    [git reset HEAD --]. *)
Definition git_command (argv : list str) : bool :=
  strs_eqb (firstn 3 argv) [lit "git"; lit "checkout"; lit "--"]
  || strs_eqb (firstn 4 argv) [lit "git"; lit "reset"; lit "HEAD"; lit "--"].

(** What the reset action may do for a file that git knows: ask its
    question, run one of the two git commands in the root, and tell the
    editor to check the files' times. *)
Definition reset_effect_allowed (root : str) (e : effect) : bool :=
  match e with
  | Asked prompt _ => str_eqb prompt reset_prompt
  | Spawned argv cwd => str_eqb cwd root && git_command argv
  | VimCommand cmd => str_eqb cmd (lit "checktime")
  | _ => false
  end.

(** The request to remove the file at [filepath], as the probes of
    [Kind.__init__] select it; [p] is the path relative to the directory
    of the buffer. *)
Definition removal (exists_Rm : Z) (executable_rmtrash : bool)
  (root filepath p : str) : effect :=
  if Z.eqb exists_Rm 2 then VimCommand (lit "Rm " ++ p)
  else if executable_rmtrash then Spawned [lit "rmtrash"; filepath] root
  else VimCall (lit "delete") [filepath].

(** The question of the diff preview and the one of the commit action. *)
Definition diff_prompt : str := lit "Diff cached?[y/n]".
Definition commit_prompt : str := lit "Commit message: ".

(** A name that [normpath] keeps: a name other than [.] and [..]. *)
Definition simple_name (x : str) : bool :=
  is_name x
  && negb (str_eqb x PosixPath.curdir)
  && negb (str_eqb x PosixPath.pardir).

(** The components that [normpath] keeps of an absolute path. *)
Definition kept_components (p : str) : list str :=
  fold_left (PosixPath.normpath_step 1) (split PosixPath.sep p) [].

(** A relative path made of simple names separated by single
    slashes. *)
Definition simple_relative (rel : str) : bool :=
  forallb simple_name (split PosixPath.sep rel).

(** What each decision of the reset action does first, in the words of
    the specification: the question to the user, [git reset HEAD -- path]
    or [git checkout -- path] as one argument vector run in the root, or
    the request to remove the file. *)
Definition decision_effect (d : decision) (root path : str)
  (removal_request : effect) : effect :=
  match d with
  | AskUser => Asked reset_prompt []
  | Reset =>
      Spawned [lit "git"; lit "reset"; lit "HEAD"; lit "--"; path] root
  | Checkout => Spawned [lit "git"; lit "checkout"; lit "--"; path] root
  | Delete => removal_request
  end.

(** A target with exactly one of its flags set and a relative path that
    is not empty and has only plain characters. *)
Definition plain_single_flag (h : host) (target : candidate) : bool :=
  xorb (source__staged target) (source__tree target)
  && match PosixPath.relpath (os_getcwd h) (action__path target)
             (source__root target) with
     | Ok p => forallb plain p && negb (PosixPath.is_nil p)
     | Raise _ => false
     end.

(** The git command for such a target: checkout when it is modified in
    the tree, reset otherwise. *)
Definition reset_argv (h : host) (target : candidate) : list str :=
  match PosixPath.relpath (os_getcwd h) (action__path target)
          (source__root target) with
  | Ok p =>
      if source__tree target
      then [lit "git"; lit "checkout"; lit "--"; p]
      else [lit "git"; lit "reset"; lit "HEAD"; lit "--"; p]
  | Raise _ => []
  end.

(** A host on which every command can be run and prints UTF-8. *)
Definition processes_run (h : host) : Prop :=
  forall t argv cwd, raises (fst (run_command h argv cwd t)) = false.

Unset Implicit Arguments.

(** ** The status table and the parser *)

Lemma char_eqb_eq (a b : char) : char_eqb a b = true <-> a = b.
Proof. apply N.eqb_eq. Qed.

Lemma char_eqb_refl (a : char) : char_eqb a a = true.
Proof. apply N.eqb_refl. Qed.

Lemma str_eqb_eq (a b : str) : str_eqb a b = true <-> a = b.
Proof.
  revert b; induction a as [|x a IH]; intros [|y b]; simpl;
    try (split; [discriminate | discriminate]); try tauto.
  rewrite andb_true_iff, char_eqb_eq, IH.
  split; [intros [-> ->]; reflexivity | intros H; inversion H; auto].
Qed.

Lemma str_eqb_refl (a : str) : str_eqb a a = true.
Proof. apply str_eqb_eq; reflexivity. Qed.

(** The display symbol of a code is [' '] or ['?'] exactly when the code
    is: one case per entry of the table. *)
Lemma symbol_blank_iff (c : char) (sym desc : str) :
  dict_getitem STATUS_MAP c = Ok (sym, desc) ->
  negb (str_in sym [lit " "; lit "?"]) = is_change c.
Proof.
  unfold STATUS_MAP. cbn [dict_getitem]. unfold char_eqb. intros H.
  repeat match type of H with
         | context [N.eqb ?k c] =>
             destruct (N.eqb_spec k c) as [<- | ?];
             [ injection H as <- <-; vm_compute; reflexivity | ]
         end.
  discriminate.
Qed.

Lemma known_code_lookup (c : char) :
  known_code c = negb (raises (dict_getitem STATUS_MAP c)).
Proof.
  unfold known_code, STATUS_MAP. cbn [dict_getitem existsb fst].
  unfold char_eqb.
  repeat match goal with
         | |- context [N.eqb ?k c] =>
             destruct (N.eqb_spec k c) as [<- | ?]; [ reflexivity | ]
         end.
  reflexivity.
Qed.

Lemma known_code_entry (c : char) :
  known_code c = true -> exists sym desc, dict_getitem STATUS_MAP c = Ok (sym, desc).
Proof.
  rewrite known_code_lookup.
  destruct (dict_getitem STATUS_MAP c) as [[sym desc]|e]; simpl.
  - eauto.
  - discriminate.
Qed.

Lemma parse_line_raises (line root : str) :
  raises (_parse_line line root) = negb (two_known_codes line).
Proof.
  destruct line as [|i [|t rest]];
    unfold _parse_line, getitem, two_known_codes; cbn [nth_error rbind].
  - reflexivity.
  - destruct (dict_getitem STATUS_MAP i) as [[? ?]|?]; reflexivity.
  - rewrite !known_code_lookup.
    destruct (dict_getitem STATUS_MAP i) as [[? ?]|?];
      cbn [rbind raises negb andb]; try reflexivity.
    destruct (dict_getitem STATUS_MAP t) as [[? ?]|?]; reflexivity.
Qed.

Lemma gather_lines_acc (root : str) (lines : list str) (acc : list candidate) :
  gather_lines root lines acc =
  (cs <-! gather_lines root lines [] ;; Ok (acc ++ cs)).
Proof.
  revert acc; induction lines as [|line rest IH]; intros acc; simpl.
  - rewrite app_nil_r; reflexivity.
  - destruct (EMPTY_LINE line); [apply IH|].
    destruct (_parse_line line root) as [c|e]; simpl; [|reflexivity].
    rewrite (IH (acc ++ [c])), (IH [c]).
    destruct (gather_lines root rest []) as [cs|e]; simpl; [|reflexivity].
    rewrite <- app_assoc; reflexivity.
Qed.

Lemma gather_lines_parse_all (root : str) (lines : list str) :
  gather_lines root lines [] = parse_all root (filter nonblank lines).
Proof.
  induction lines as [|line rest IH]; simpl; [reflexivity|].
  unfold nonblank at 1. destruct (EMPTY_LINE line); simpl; [exact IH|].
  destruct (_parse_line line root) as [c|e]; simpl; [|reflexivity].
  rewrite gather_lines_acc, IH. reflexivity.
Qed.

Lemma parse_all_Forall2 (root : str) (lines : list str) (cs : list candidate) :
  parse_all root lines = Ok cs ->
  Forall2 (fun l c => _parse_line l root = Ok c) lines cs.
Proof.
  revert cs; induction lines as [|line rest IH]; intros cs; simpl.
  - intros H; injection H as <-; constructor.
  - destruct (_parse_line line root) as [c|e] eqn:E; simpl; [|discriminate].
    destruct (parse_all root rest) as [cs'|e]; simpl; [|discriminate].
    intros H; injection H as <-. constructor; auto.
Qed.

Lemma parse_all_raises (root : str) (lines : list str) :
  raises (parse_all root lines) =
  existsb (fun l => negb (two_known_codes l)) lines.
Proof.
  induction lines as [|line rest IH]; simpl; [reflexivity|].
  rewrite <- (parse_line_raises line root), <- IH.
  destruct (_parse_line line root); simpl; [|reflexivity].
  destruct (parse_all root rest); reflexivity.
Qed.

Lemma gather_lines_raises (root : str) (lines : list str) :
  raises (gather_lines root lines []) =
  existsb (fun l => nonblank l && negb (two_known_codes l)) lines.
Proof.
  rewrite gather_lines_parse_all, parse_all_raises.
  induction lines as [|line rest IH]; simpl; [reflexivity|].
  destruct (nonblank line); simpl; rewrite IH; reflexivity.
Qed.

Lemma filter_nonblank_blank (bs : list str) :
  filter nonblank (filter EMPTY_LINE bs) = [].
Proof.
  induction bs as [|b bs IH]; simpl; [reflexivity|].
  destruct (EMPTY_LINE b) eqn:E; simpl; [|exact IH].
  unfold nonblank at 1. rewrite E. exact IH.
Qed.

Lemma filter_nonblank_idem (lines : list str) :
  filter nonblank (filter nonblank lines) = filter nonblank lines.
Proof.
  induction lines as [|l lines IH]; simpl; [reflexivity|].
  destruct (nonblank l) eqn:E; simpl; [rewrite E, IH|]; auto.
Qed.

(** C1: for a status line whose two status characters are in the fixed
    table, parsing succeeds, the candidate's staged flag is true exactly
    when the index code is neither [' '] nor ['?'], and its
    modified-in-tree flag is true exactly when the tree code is neither
    [' '] nor ['?'] (the flags are computed from the display symbols,
    which are [' '] or ['?'] exactly for those codes). *)
Theorem C1_flags_follow_codes (root : str) (i t : char) (rest : str) :
  known_code i = true ->
  known_code t = true ->
  exists c,
    _parse_line (i :: t :: rest) root = Ok c
    /\ source__staged c = is_change i
    /\ source__tree c = is_change t.
Proof.
  intros Hi Ht.
  destruct (known_code_entry i Hi) as (isym & idesc & Ei).
  destruct (known_code_entry t Ht) as (tsym & tdesc & Et).
  unfold _parse_line, getitem; cbn [nth_error rbind].
  rewrite Ei; cbn [rbind]. rewrite Et; cbn [rbind].
  eexists; split; [reflexivity|].
  cbn [source__staged source__tree].
  split; eapply symbol_blank_iff; eassumption.
Qed.

Lemma C1_flags_follow_codes_witness :
  known_code 32%N = true /\ known_code 77%N = true
  /\ exists c,
       _parse_line (32%N :: 77%N :: lit " path/to/file") (lit "/repo") = Ok c
       /\ source__staged c = is_change 32%N
       /\ source__tree c = is_change 77%N.
Proof.
  split; [reflexivity|]. split; [reflexivity|].
  apply (C1_flags_follow_codes (lit "/repo") 32%N 77%N (lit " path/to/file"));
    reflexivity.
Defined.



(** C8: listing an output gives the same result as listing the output
    with its blank (empty or white-space only) lines removed, and
    inserting any run of blank lines anywhere changes nothing. *)
Theorem C8_blank_lines_ignored (root : str) (lines l1 bs l2 : list str) :
  gather_lines root lines [] = gather_lines root (filter nonblank lines) []
  /\ gather_lines root (l1 ++ filter EMPTY_LINE bs ++ l2) [] =
     gather_lines root (l1 ++ l2) [].
Proof.
  split.
  - rewrite !gather_lines_parse_all, filter_nonblank_idem; reflexivity.
  - rewrite !gather_lines_parse_all, !filter_app, filter_nonblank_blank.
    reflexivity.
Qed.

(** The result of the listing, from what became of the process. *)
Lemma gather_candidates_outcome (h : host) (c : char) (r : str)
  (t : list effect) :
  fst (gather_candidates h (Some (c :: r)) t) =
  match spawn h (t ++ [Printed status_message]) status_args (c :: r) with
  | Subprocess.NotStarted => Raise OSError
  | Subprocess.Exited _ output =>
      s <-! Subprocess.decode_utf8 output ;;
      gather_lines (c :: r) (split 10%N s) []
  end.
Proof.
  cbn [gather_candidates].
  change (join_with (lit " ")
            [lit "git"; lit "status"; lit "--porcelain"; lit "-uall"])
    with status_message.
  fold status_args.
  unfold bind at 1. unfold emit at 1.
  unfold bind at 1. unfold run_command.
  destruct (spawn h (t ++ [Printed status_message]) status_args (c :: r))
    as [|rc output]; cbn [Subprocess.run andb fst]; [reflexivity|].
  cbn [Subprocess.stdout].
  destruct (Subprocess.decode_utf8 output); reflexivity.
Qed.

Lemma gather_lines_returns (root : str) (lines : list str) :
  forallb (fun l => EMPTY_LINE l || two_known_codes l) lines = true ->
  exists cs, gather_lines root lines [] = Ok cs.
Proof.
  intros H.
  assert (R : raises (gather_lines root lines []) = false).
  { rewrite gather_lines_raises.
    induction lines as [|l lines IH]; simpl in *; [reflexivity|].
    apply andb_true_iff in H as [Hl H]. rewrite (IH H).
    unfold nonblank. destruct (EMPTY_LINE l); simpl in *;
      [reflexivity | rewrite Hl; reflexivity]. }
  destruct (gather_lines root lines []) as [cs|e]; [eauto | discriminate].
Qed.

(** C10: the listing operation, in a root, returns a list whenever the
    status command ran, its output was UTF-8 and every non-blank line of
    the output starts with two status characters of the table; and
    whenever it returns a list, the command ran, and the list holds the
    parses of the non-blank lines of its output, one candidate for each
    line, in the order of the lines. *)
Theorem C10_one_candidate_per_line_in_order (h : host) (c : char) (r : str)
  (t : list effect) :
  (forall rc output s,
     spawn h (t ++ [Printed status_message]) status_args (c :: r)
     = Subprocess.Exited rc output ->
     Subprocess.decode_utf8 output = Ok s ->
     forallb (fun l => EMPTY_LINE l || two_known_codes l) (split 10%N s)
     = true ->
     exists cs, fst (gather_candidates h (Some (c :: r)) t) = Ok cs)
  /\ (forall cs,
        fst (gather_candidates h (Some (c :: r)) t) = Ok cs ->
        exists rc output s,
          spawn h (t ++ [Printed status_message]) status_args (c :: r)
          = Subprocess.Exited rc output
          /\ Subprocess.decode_utf8 output = Ok s
          /\ Forall2 (fun l cand => _parse_line l (c :: r) = Ok cand)
                     (filter nonblank (split 10%N s)) cs).
Proof.
  rewrite gather_candidates_outcome. split.
  - intros rc output s -> D W. rewrite D. cbn [rbind].
    apply gather_lines_returns, W.
  - intros cs H.
    destruct (spawn h (t ++ [Printed status_message]) status_args (c :: r))
      as [|rc output]; [discriminate|].
    destruct (Subprocess.decode_utf8 output) as [s|e] eqn:D; cbn [rbind] in H;
      [|discriminate].
    exists rc, output, s. split; [reflexivity|]. split; [exact D|].
    rewrite gather_lines_parse_all in H. apply parse_all_Forall2, H.
Qed.

Lemma C10_one_candidate_per_line_in_order_witness :
  exists cs,
    fst (gather_candidates
           (sample_host
              (Subprocess.Exited 0
                 (lit " M a" ++ [10%N; 10%N] ++ lit "?? b" ++ [10%N]))
              [] [] [])
           (Some (lit "/repo")) []) = Ok cs
    /\ Forall2 (fun l cand => _parse_line l (lit "/repo") = Ok cand)
               [lit " M a"; lit "?? b"] cs.
Proof.
  pose proof (C10_one_candidate_per_line_in_order
                (sample_host
                   (Subprocess.Exited 0
                      (lit " M a" ++ [10%N; 10%N] ++ lit "?? b" ++ [10%N]))
                   [] [] [])
                47%N (lit "repo") []) as [Hret Hlist].
  destruct (Hret 0%Z (lit " M a" ++ [10%N; 10%N] ++ lit "?? b" ++ [10%N])
              (lit " M a" ++ [10%N; 10%N] ++ lit "?? b" ++ [10%N])
              eq_refl eq_refl eq_refl) as [cs E].
  exists cs. split; [exact E|].
  destruct (Hlist cs E) as (rc & output & s & Hs & Hd & F).
  injection Hs as <- <-.
  injection Hd as <-.
  exact F.
Defined.

(** ** The command runner *)

(** A child process that ran: its output is returned whatever its exit
    status. *)
Lemma run_command_exited (h : host) (argv : list str) (cwd : str)
  (t : list effect) (rc : Z) (output : Subprocess.bytes) :
  spawn h t argv cwd = Subprocess.Exited rc output ->
  run_command h argv cwd t =
  (s <-! Subprocess.decode_utf8 output ;; Ok (split 10%N s),
   t ++ [Spawned argv cwd]).
Proof. intros E. unfold run_command. rewrite E. reflexivity. Qed.

(** A child process that could not be started: the error goes on to the
    caller. *)
Lemma run_command_not_started (h : host) (argv : list str) (cwd : str)
  (t : list effect) :
  spawn h t argv cwd = Subprocess.NotStarted ->
  run_command h argv cwd t = (Raise OSError, t ++ [Spawned argv cwd]).
Proof. intros E. unfold run_command. rewrite E. reflexivity. Qed.

(** C3 does not hold of the code.  When [git status] exits with status
    128 after printing a message, [run_command] returns the lines of that
    message, not the empty list; and when the program cannot be started,
    [run_command] raises [OSError]. *)
Theorem C3_failure_is_not_swallowed :
  fst (run_command
         (sample_host
            (Subprocess.Exited 128
               (Subprocess.ascii_bytes "fatal: not a git repository"))
            [] [] [])
         status_args (lit "/tmp") [])
  = Ok [lit "fatal: not a git repository"]
  /\ fst (run_command (sample_host Subprocess.NotStarted [] [] [])
            status_args (lit "/tmp") [])
     = Raise OSError.
Proof. split; vm_compute; reflexivity. Qed.

(** ** The reset action *)

Lemma relpath_ok (cwd path start : str) :
  path <> [] -> exists p, PosixPath.relpath cwd path start = Ok p.
Proof.
  intros H. unfold PosixPath.relpath.
  destruct path as [|c path]; [contradiction|].
  match goal with |- context [match ?l with [] => _ | _ :: _ => _ end] =>
    destruct l end; eauto.
Qed.

(** C2 does not hold of the code, by the defect that C9 shows.  The
    branch for a target that is only staged builds the text
    [git reset HEAD -- ] followed by the relative path and splits it
    again: for [/repo/it's.txt] the body raises and runs nothing, not
    even [checktime]; for [/repo/rock'n'roll.txt] it runs
    [git reset HEAD -- rocknroll.txt]; the same holds of the checkout
    branch.  For [/repo/a.txt] the branches run what the table says. *)
Theorem C2_reset_branch_loses_the_path :
  PosixPath.relpath (lit "/repo") (lit "/repo/it's.txt") (lit "/repo")
  = Ok (lit "it's.txt")
  /\ action_reset_target calm_host (lit "delete") (lit "/repo")
       (sample_target "/repo/it's.txt" true false) []
     = (Raise (ValueError "No closing quotation"), [])
  /\ action_reset_target calm_host (lit "delete") (lit "/repo")
       (sample_target "/repo/rock'n'roll.txt" true false) []
     = (Ok tt,
        [Spawned [lit "git"; lit "reset"; lit "HEAD"; lit "--";
                  lit "rocknroll.txt"] (lit "/repo");
         VimCommand (lit "checktime")])
  /\ action_reset_target calm_host (lit "delete") (lit "/repo")
       (sample_target "/repo/it's.txt" false true) []
     = (Raise (ValueError "No closing quotation"), [])
  /\ action_reset_target calm_host (lit "delete") (lit "/repo")
       (sample_target "/repo/a.txt" true false) []
     = (Ok tt,
        [Spawned [lit "git"; lit "reset"; lit "HEAD"; lit "--"; lit "a.txt"]
           (lit "/repo");
         VimCommand (lit "checktime")])
  /\ action_reset_target calm_host (lit "delete") (lit "/repo")
       (sample_target "/repo/a.txt" false true) []
     = (Ok tt,
        [Spawned [lit "git"; lit "checkout"; lit "--"; lit "a.txt"]
           (lit "/repo");
         VimCommand (lit "checktime")]).
Proof. repeat split; vm_compute; reflexivity. Qed.

(** C7: for a target that is both staged and modified in the tree, when
    the user's answer to the prompt is neither [r] nor [c], the body of
    the loop asks, starts no process, removes nothing, and ends normally
    after telling the editor to check the files' times (when the target
    has no path at all, it raises before asking). *)
Theorem C7_other_answer_is_no_op (h : host) (remove cwd : str)
  (target : candidate) (w : list effect) :
  source__staged target = true ->
  source__tree target = true ->
  str_eqb (reply h w reset_prompt []) (lit "r") = false ->
  str_eqb (reply h w reset_prompt []) (lit "c") = false ->
  action_reset_target h remove cwd target w =
  match PosixPath.relpath (os_getcwd h) (action__path target)
          (source__root target) with
  | Ok _ =>
      (Ok tt, w ++ [Asked reset_prompt []; VimCommand (lit "checktime")])
  | Raise e => (Raise e, w)
  end.
Proof.
  intros Hs Ht Hr Hc.
  unfold action_reset_target.
  unfold bind at 1. unfold lift at 1.
  destruct (PosixPath.relpath (os_getcwd h) (action__path target)
              (source__root target)) as [path|e]; [|reflexivity].
  rewrite Hs, Ht. cbn [andb].
  unfold bind at 1. unfold bind at 1. unfold util_input at 1.
  fold reset_prompt. rewrite Hc, Hr.
  unfold ret, emit. rewrite <- app_assoc. reflexivity.
Qed.

Lemma C7_other_answer_is_no_op_witness :
  action_reset_target calm_host (lit "delete") (lit "/repo")
    (sample_target "/repo/a.txt" true true) [] =
  (Ok tt, [Asked reset_prompt []; VimCommand (lit "checktime")]).
Proof.
  exact (C7_other_answer_is_no_op calm_host (lit "delete") (lit "/repo")
           (sample_target "/repo/a.txt" true true) []
           eq_refl eq_refl eq_refl eq_refl).
Defined.

(** ** Path arguments *)

(** The loop of the add and patch actions appends one relative path for
    each target, each relative to the root it is given. *)
Lemma append_relpaths_spec (h : host) (root : str) (targets : list candidate)
  (args args' : list str) :
  append_relpaths h root targets args = Ok args' ->
  exists ps,
    args' = args ++ ps
    /\ Forall2 (fun t p =>
                  PosixPath.relpath (os_getcwd h) (action__path t) root = Ok p)
               targets ps.
Proof.
  revert args args'; induction targets as [|t ts IH]; intros args args'; simpl.
  - intros H; injection H as <-. exists []; rewrite app_nil_r; auto.
  - destruct (PosixPath.relpath (os_getcwd h) (action__path t) root)
      as [p|e] eqn:E; simpl; [|discriminate].
    intros H. destruct (IH _ _ H) as (ps & -> & F).
    exists (p :: ps); split; [rewrite <- app_assoc; reflexivity|].
    constructor; assumption.
Qed.

(** In a word, [shlex] appends plain characters to the token. *)
Lemma shlex_plain_in_word (p : str) (l : Shlex.lexer) :
  forallb plain p = true ->
  Shlex.st l = Shlex.InWord ->
  fold_left Shlex.step p l =
  {| Shlex.st := Shlex.InWord; Shlex.token := Shlex.token l ++ p;
     Shlex.quoted := Shlex.quoted l; Shlex.out := Shlex.out l |}.
Proof.
  revert l; induction p as [|c p IH]; intros l Hp Hl; simpl.
  - rewrite app_nil_r. destruct l; simpl in *; subst; reflexivity.
  - simpl in Hp. apply andb_true_iff in Hp as [Hc Hp].
    unfold plain in Hc.
    apply andb_true_iff in Hc as [Hc He].
    apply andb_true_iff in Hc as [Hw Hq].
    apply negb_true_iff in Hw, Hq, He.
    rewrite IH; [|exact Hp|unfold Shlex.step; rewrite Hl, Hw, Hq, He; reflexivity].
    unfold Shlex.step; rewrite Hl, Hw, Hq, He; simpl.
    rewrite <- app_assoc; reflexivity.
Qed.

(** A command line that ends in a plain, non-empty path splits into the
    words before it and the path, whole. *)
Lemma shlex_split_plain_path (p : str) :
  forallb plain p = true ->
  p <> [] ->
  Shlex.split (lit "git checkout -- " ++ p)
  = Ok [lit "git"; lit "checkout"; lit "--"; p]
  /\ Shlex.split (lit "git reset HEAD -- " ++ p)
     = Ok [lit "git"; lit "reset"; lit "HEAD"; lit "--"; p].
Proof.
  intros Hp Hne. destruct p as [|c p]; [contradiction|].
  simpl in Hp. apply andb_true_iff in Hp as [Hc Hp].
  pose proof Hc as Hc'. unfold plain in Hc'.
  apply andb_true_iff in Hc' as [Hc' He].
  apply andb_true_iff in Hc' as [Hw Hq].
  apply negb_true_iff in Hw, Hq, He.
  unfold Shlex.split.
  split; rewrite fold_left_app;
    match goal with
    | |- context [fold_left Shlex.step (c :: p) ?l] =>
        let l' := eval vm_compute in l in
        change l with l'
    end;
    cbn [fold_left]; unfold Shlex.step at 2; cbn [Shlex.st];
    rewrite Hw, Hq, He;
    (rewrite shlex_plain_in_word; [|exact Hp|reflexivity]);
    reflexivity.
Qed.

Lemma split_slash_free (s : str) :
  Forall (fun x => slash_free x = true) (split PosixPath.sep s).
Proof.
  induction s as [|c s IH]; cbn [split].
  - repeat constructor.
  - destruct (char_eqb c PosixPath.sep) eqn:E.
    + constructor; [reflexivity | exact IH].
    + destruct (split PosixPath.sep s) as [|x xs]; [repeat constructor|].
      * cbn. rewrite E. reflexivity.
      * inversion IH; subst. constructor; [|assumption].
        cbn. rewrite E. cbn. assumption.
Qed.

Lemma components_names (p : str) :
  Forall (fun x => is_name x = true) (PosixPath.components p).
Proof.
  unfold PosixPath.components.
  pose proof (split_slash_free p) as F.
  induction F as [|x xs Hx F IH]; cbn [filter]; [constructor|].
  destruct (negb (PosixPath.is_nil x)) eqn:E; [|exact IH].
  constructor; [|exact IH]. unfold is_name. rewrite E, Hx. reflexivity.
Qed.

Lemma Forall_skipn {A} (P : A -> Prop) (n : nat) (l : list A) :
  Forall P l -> Forall P (skipn n l).
Proof.
  revert l; induction n as [|n IH]; intros l F; [exact F|].
  destruct F; [constructor | apply IH; assumption].
Qed.

Lemma Forall_repeat {A} (P : A -> Prop) (x : A) (n : nat) :
  P x -> Forall P (repeat x n).
Proof. intros H; induction n; constructor; assumption. Qed.

(** Joining names to a path extends the path. *)
Lemma join_names_extends (p : list str) :
  Forall (fun x => is_name x = true) p ->
  forall a, exists r, PosixPath.join a p = a ++ r.
Proof.
  unfold PosixPath.join.
  induction 1 as [|b p Hb F IH]; intros a; cbn [fold_left].
  - exists []; rewrite app_nil_r; reflexivity.
  - assert (Hs : startswith PosixPath.sep b = false).
    { unfold is_name in Hb. apply andb_true_iff in Hb as [Hn Hf].
      destruct b as [|c b]; [reflexivity|].
      cbn in Hf. apply andb_true_iff in Hf as [Hc _].
      apply negb_true_iff in Hc. exact Hc. }
    unfold PosixPath.join_step at 2. rewrite Hs.
    match goal with
    | |- context [if ?c then _ else _] => destruct c
    end.
    + destruct (IH (a ++ b)) as [r ->].
      exists (b ++ r); rewrite app_assoc; reflexivity.
    + destruct (IH (a ++ PosixPath.sep :: b)) as [r ->].
      exists ((PosixPath.sep :: b) ++ r); rewrite app_assoc; reflexivity.
Qed.

(** What [relpath] returns is never an absolute path. *)
Lemma relpath_not_absolute (cwd path start p : str) :
  PosixPath.relpath cwd path start = Ok p ->
  PosixPath.isabs p = false.
Proof.
  unfold PosixPath.relpath.
  destruct path as [|c path]; [discriminate|].
  set (start_list := PosixPath.components (PosixPath.abspath cwd start)).
  set (path_list := PosixPath.components (PosixPath.abspath cwd (c :: path))).
  set (i := List.length (PosixPath.commonprefix start_list path_list)).
  assert (F : Forall (fun x => is_name x = true)
                (repeat PosixPath.pardir (List.length start_list - i)
                 ++ skipn i path_list)).
  { apply Forall_app; split.
    - apply Forall_repeat; reflexivity.
    - apply Forall_skipn, components_names. }
  destruct (repeat PosixPath.pardir (List.length start_list - i)
            ++ skipn i path_list) as [|a rest].
  - intros H; injection H as <-; reflexivity.
  - intros H; injection H as <-.
    inversion F as [|? ? Ha Frest]; subst.
    destruct (join_names_extends rest Frest a) as [r ->].
    unfold is_name in Ha. apply andb_true_iff in Ha as [Hn Hf].
    destruct a as [|x a]; [discriminate|].
    cbn in Hf. apply andb_true_iff in Hf as [Hx _].
    apply negb_true_iff in Hx. exact Hx.
Qed.

(** The arguments of the add action: [git add] and, for each target, its
    path relative to the root of the first target, none of them
    absolute. *)
Lemma add_arguments_relative (h : host) (root : str)
  (targets : list candidate) (args : list str) :
  append_relpaths h root targets [lit "git"; lit "add"] = Ok args ->
  exists ps,
    args = lit "git" :: lit "add" :: ps
    /\ Forall2 (fun t p =>
                  PosixPath.relpath (os_getcwd h) (action__path t) root = Ok p
                  /\ PosixPath.isabs p = false)
               targets ps.
Proof.
  intros H. destruct (append_relpaths_spec h root targets _ _ H)
    as (ps & -> & F).
  exists ps; split; [reflexivity|].
  clear H. induction F as [|t p ts ps' Hp F IH]; constructor; [|exact IH].
  split; [exact Hp | eapply relpath_not_absolute; exact Hp].
Qed.

(** C9 does not hold of the reset action.  For the target
    [/repo/rock'n'roll.txt], modified in the tree only, the path relative
    to the root is [rock'n'roll.txt], yet git is given [rocknroll.txt];
    the add action gives git the relative path as it is.  For
    [/repo/it's.txt] the body raises before any command is run.  For
    [/repo/my file.txt] git is given the two arguments [my] and
    [file.txt], and for [/repo/a /etc/passwd] it is given the absolute
    path [/etc/passwd]. *)
Theorem C9_reset_splits_the_relative_path :
  PosixPath.relpath (lit "/repo") (lit "/repo/rock'n'roll.txt") (lit "/repo")
  = Ok (lit "rock'n'roll.txt")
  /\ snd (action_reset_target calm_host (lit "delete") (lit "/repo")
            (sample_target "/repo/rock'n'roll.txt" false true) [])
     = [Spawned [lit "git"; lit "checkout"; lit "--"; lit "rocknroll.txt"]
          (lit "/repo");
        VimCommand (lit "checktime")]
  /\ snd (action_add calm_host
            [sample_target "/repo/rock'n'roll.txt" false true] [])
     = [Spawned [lit "git"; lit "add"; lit "rock'n'roll.txt"] (lit "/repo")]
  /\ action_reset_target calm_host (lit "delete") (lit "/repo")
       (sample_target "/repo/it's.txt" false true) []
     = (Raise (ValueError "No closing quotation"), [])
  /\ snd (action_reset_target calm_host (lit "delete") (lit "/repo")
            (sample_target "/repo/my file.txt" false true) [])
     = [Spawned [lit "git"; lit "checkout"; lit "--"; lit "my"; lit "file.txt"]
          (lit "/repo");
        VimCommand (lit "checktime")]
  /\ snd (action_reset_target calm_host (lit "delete") (lit "/repo")
            (sample_target "/repo/a /etc/passwd" true false) [])
     = [Spawned [lit "git"; lit "reset"; lit "HEAD"; lit "--"; lit "a";
                 lit "/etc/passwd"]
          (lit "/repo");
        VimCommand (lit "checktime")].
Proof. repeat split; vm_compute; reflexivity. Qed.

(** ** The root lookup *)

Arguments char_eqb : simpl never.

Section Dirname.

Import PosixPath.

Lemma rfind_succ_from_last_sep (s : str) (i last : nat) :
  rfind_succ_from sep i last s =
  match last_sep s with
  | O => last
  | S k => i + S k
  end.
Proof.
  revert i last; induction s as [|x r IH]; intros i last; simpl.
  - reflexivity.
  - rewrite IH. destruct (last_sep r) as [|k].
    + destruct (char_eqb x sep); [lia | reflexivity].
    + lia.
Qed.

Lemma rfind_succ_last_sep (s : str) : rfind_succ sep s = last_sep s.
Proof.
  unfold rfind_succ. rewrite rfind_succ_from_last_sep.
  destruct (last_sep s); reflexivity.
Qed.

Lemma last_sep_le (s : str) : last_sep s <= List.length s.
Proof.
  induction s as [|x r IH]; simpl; [lia|].
  destruct (last_sep r); [destruct (char_eqb x sep)|]; lia.
Qed.

Lemma head_of_cons (x : char) (r : str) :
  head_of (x :: r) =
  match last_sep r with
  | O => if char_eqb x sep then [x] else []
  | S _ => x :: head_of r
  end.
Proof.
  unfold head_of; simpl.
  destruct (last_sep r); [destruct (char_eqb x sep)|]; reflexivity.
Qed.

Lemma head_of_length (s : str) : List.length (head_of s) <= List.length s.
Proof. unfold head_of. rewrite length_firstn. lia. Qed.

Lemma head_of_full (s : str) :
  List.length (head_of s) = List.length s -> head_of s = s.
Proof.
  unfold head_of. intros H. rewrite length_firstn in H.
  apply firstn_all2. lia.
Qed.

Lemma head_of_abs (s : str) :
  isabs s = true -> isabs (head_of s) = true.
Proof.
  destruct s as [|x r]; simpl; [discriminate|].
  intros H. rewrite head_of_cons.
  destruct (last_sep r); [rewrite H|]; simpl; exact H.
Qed.

Lemma head_of_ends (s : str) :
  head_of s = [] \/ endswith sep (head_of s) = true.
Proof.
  induction s as [|x r IH]; [left; reflexivity|].
  rewrite head_of_cons.
  destruct (last_sep r) as [|k] eqn:E.
  - destruct (char_eqb x sep) eqn:Ex; [right; simpl; exact Ex | left; reflexivity].
  - right. destruct IH as [IH|IH].
    + unfold head_of in IH. rewrite E in IH. destruct r; discriminate.
    + simpl. destruct (head_of r); [discriminate | exact IH].
Qed.

Lemma rstrip_length (s : str) : List.length (rstrip sep s) <= List.length s.
Proof.
  induction s as [|x r IH]; simpl; [lia|].
  destruct (rstrip sep r); [destruct (char_eqb x sep)|]; simpl in *; lia.
Qed.

Lemma rstrip_shorter (s : str) :
  endswith sep s = true -> List.length (rstrip sep s) < List.length s.
Proof.
  induction s as [|x r IH]; simpl; [discriminate|].
  destruct r as [|y r'].
  - intros H. simpl. rewrite H. simpl. lia.
  - intros H. specialize (IH H).
    destruct (rstrip sep (y :: r')); [destruct (char_eqb x sep)|];
      simpl in *; lia.
Qed.

Lemma rstrip_nil_all (s : str) :
  rstrip sep s = [] -> forallb (char_eqb sep) s = true.
Proof.
  induction s as [|x r IH]; simpl; [reflexivity|].
  destruct (rstrip sep r); [|discriminate].
  destruct (char_eqb x sep) eqn:E; [|discriminate].
  intros _. apply char_eqb_eq in E; subst x.
  rewrite char_eqb_refl. cbn [andb]. apply IH; reflexivity.
Qed.

Lemma rstrip_abs (s : str) :
  isabs s = true ->
  forallb (char_eqb sep) s = false ->
  isabs (rstrip sep s) = true.
Proof.
  destruct s as [|x r]; simpl; [discriminate|].
  intros Hx Hall.
  destruct (rstrip sep r) eqn:E; simpl; [|exact Hx].
  apply rstrip_nil_all in E. rewrite E, andb_true_r in Hall.
  apply char_eqb_eq in Hx; subst x. rewrite char_eqb_refl in Hall.
  discriminate.
Qed.

Lemma dirname_head_of (p : str) :
  dirname p =
  if negb (is_nil (head_of p)) && negb (forallb (char_eqb sep) (head_of p))
  then rstrip sep (head_of p)
  else head_of p.
Proof.
  unfold dirname, head_of. rewrite rfind_succ_last_sep.
  destruct (firstn (last_sep p) p); reflexivity.
Qed.

(** The parent of an absolute path is absolute. *)
Lemma dirname_abs (p : str) : isabs p = true -> isabs (dirname p) = true.
Proof.
  intros H. rewrite dirname_head_of.
  pose proof (head_of_abs p H) as Ha.
  destruct (head_of p) as [|x r] eqn:E; [discriminate|].
  cbn [is_nil negb andb].
  destruct (forallb (char_eqb sep) (x :: r)) eqn:F; cbn [negb]; [exact Ha|].
  apply rstrip_abs; assumption.
Qed.

(** The parent of an absolute path that is not a spelling of the root
    directory is shorter. *)
Lemma dirname_shorter (p : str) :
  isabs p = true ->
  all_slashes p = false ->
  List.length (dirname p) < List.length p.
Proof.
  intros H Hall. rewrite dirname_head_of.
  pose proof (head_of_abs p H) as Ha.
  pose proof (head_of_length p) as Hl.
  destruct (head_of p) as [|x r] eqn:E; [discriminate|].
  cbn [is_nil negb andb].
  destruct (forallb (char_eqb sep) (x :: r)) eqn:F; cbn [negb].
  - destruct (Nat.eq_dec (List.length (x :: r)) (List.length p)) as [Q|Q];
      [|lia].
    rewrite <- E in Q. apply head_of_full in Q. rewrite E in Q. subst p.
    unfold all_slashes in Hall. rewrite F in Hall. discriminate.
  - destruct (head_of_ends p) as [N|N]; rewrite E in N; [discriminate|].
    pose proof (rstrip_shorter _ N). lia.
Qed.

End Dirname.

Section FindRoot.

Variable h : host.

Lemma find_root_step (fuel : nat) (path : str) :
  _find_root h (S fuel) path =
  if boundary h path then Some None
  else if has_git h path then Some (Some path)
       else _find_root h fuel (PosixPath.dirname path).
Proof. reflexivity. Qed.

(** The lookup stops at the first directory of the walk that is a
    boundary or holds the metadata, and the boundary is looked at first. *)
Lemma find_root_first_stop (k : nat) :
  forall (start : str) (fuel : nat),
    (forall j, j < k ->
               boundary h (ancestor j start) = false
               /\ has_git h (ancestor j start) = false) ->
    boundary h (ancestor k start) = true
    \/ has_git h (ancestor k start) = true ->
    k < fuel ->
    _find_root h fuel start =
    Some (if boundary h (ancestor k start) then None
          else Some (ancestor k start)).
Proof.
  induction k as [|k IH]; intros start fuel Hbelow Hstop Hfuel;
    (destruct fuel as [|fuel]; [lia|]); rewrite find_root_step.
  - cbn [ancestor] in *.
    destruct (boundary h start); [reflexivity|].
    destruct Hstop as [Hs|Hs]; [discriminate|]. rewrite Hs. reflexivity.
  - destruct (Hbelow 0 ltac:(lia)) as [Hb Hg]. cbn [ancestor] in Hb, Hg.
    rewrite Hb, Hg. cbn [ancestor].
    apply IH; [|exact Hstop|lia].
    intros j Hj. apply (Hbelow (S j)). lia.
Qed.

(** An absolute path has a boundary among its first [length] ancestors. *)
Lemma reaches_boundary (Hroot : root_mounted h) (n : nat) :
  forall p,
    List.length p <= n ->
    PosixPath.isabs p = true ->
    exists k, k <= List.length p /\ boundary h (ancestor k p) = true.
Proof.
  induction n as [|n IH]; intros p Hn Habs.
  - destruct p; [discriminate | simpl in Hn; lia].
  - destruct (all_slashes p) eqn:A.
    + exists 0; split; [lia|]. cbn [ancestor]. unfold boundary.
      rewrite (Hroot p A). apply orb_true_r.
    + pose proof (dirname_shorter p Habs A) as Hlt.
      destruct (IH (PosixPath.dirname p) ltac:(lia) (dirname_abs p Habs))
        as (k & Hk & Hb).
      exists (S k); split; [lia | exact Hb].
Qed.

(** The least index below a given one at which a test succeeds. *)
Lemma first_true (stop : nat -> bool) (n : nat) :
  stop n = true ->
  exists k, k <= n /\ stop k = true /\ forall j, j < k -> stop j = false.
Proof.
  revert stop; induction n as [|n IH]; intros stop Hn.
  - exists 0; repeat split; [lia | exact Hn | intros; lia].
  - destruct (stop 0) eqn:E0.
    + exists 0; repeat split; [lia | exact E0 | intros; lia].
    + destruct (IH (fun i => stop (S i)) Hn) as (k & Hk & Hs & Hb).
      exists (S k); repeat split; [lia | exact Hs |].
      intros [|j] Hj; [exact E0 | apply Hb; lia].
Qed.

Lemma find_root_characterised (Hroot : root_mounted h) (start : str) :
  PosixPath.isabs start = true ->
  exists k,
    k <= List.length start
    /\ (forall j, j < k ->
                  boundary h (ancestor j start) = false
                  /\ has_git h (ancestor j start) = false)
    /\ (boundary h (ancestor k start) = true
        \/ has_git h (ancestor k start) = true)
    /\ forall fuel,
         k < fuel ->
         _find_root h fuel start =
         Some (if boundary h (ancestor k start) then None
               else Some (ancestor k start)).
Proof.
  intros Habs.
  destruct (reaches_boundary Hroot (List.length start) start (le_n _) Habs)
    as (n & Hn & Hb).
  destruct (first_true
              (fun i => boundary h (ancestor i start)
                        || has_git h (ancestor i start)) n)
    as (k & Hk & Hs & Hbelow).
  { rewrite Hb; reflexivity. }
  assert (Hbelow' : forall j, j < k ->
            boundary h (ancestor j start) = false
            /\ has_git h (ancestor j start) = false).
  { intros j Hj. apply orb_false_iff. apply Hbelow; exact Hj. }
  apply orb_true_iff in Hs.
  exists k; repeat split; try (apply Hbelow'; assumption); [lia | exact Hs |].
  intros fuel Hfuel. apply find_root_first_stop; assumption.
Qed.

End FindRoot.

(** Outside its domain the loop need not end: from a relative path the
    walk arrives at the empty path, which is its own parent, and where
    nothing is mounted and no metadata exists the loop goes on. *)
Lemma find_root_relative_runs_on (fuel : nat) :
  _find_root calm_host fuel [] = None.
Proof. induction fuel as [|fuel IH]; [reflexivity | exact IH]. Qed.

Lemma sample_host_root_mounted (o : Subprocess.outcome) (answer : str)
  (dirs mounts : list str) :
  root_mounted (sample_host o answer dirs mounts).
Proof. intros p Hp. simpl. rewrite Hp. reflexivity. Qed.

(** C4, as the claim states it, fails: [/mnt/repo] holds the metadata
    directory and is a mount point, and the lookup from it answers
    absent; so does the lookup from [/] when [/.git] exists. *)
Lemma C4_repository_at_mount_point_not_found :
  has_git (sample_host Subprocess.NotStarted [] [lit "/mnt/repo/.git"]
             [lit "/mnt/repo"]) (lit "/mnt/repo") = true
  /\ _find_root (sample_host Subprocess.NotStarted [] [lit "/mnt/repo/.git"]
                   [lit "/mnt/repo"]) 1 (lit "/mnt/repo") = Some None
  /\ has_git (sample_host Subprocess.NotStarted [] [lit "/.git"] [])
       (lit "/") = true
  /\ _find_root (sample_host Subprocess.NotStarted [] [lit "/.git"] []) 1
       (lit "/") = Some None.
Proof. repeat split; vm_compute; reflexivity. Qed.

(** C4, amended: from an absolute start directory, on a filesystem that
    reports the root directory as a mount point, the lookup walks up
    through the parents and returns within as many rounds as the path
    has characters, plus one.  It stops at the first directory of the
    walk that is [/] or a mount point or holds [.git]; there it answers
    absent when the directory is [/] or a mount point, whether or not it
    holds [.git], and answers the directory otherwise. *)
Theorem C4_find_root_nearest_below_boundary (h : host) (start : str) :
  root_mounted h ->
  PosixPath.isabs start = true ->
  exists k,
    k <= List.length start
    /\ (forall j, j < k ->
                  boundary h (ancestor j start) = false
                  /\ has_git h (ancestor j start) = false)
    /\ (boundary h (ancestor k start) = true
        \/ has_git h (ancestor k start) = true)
    /\ forall fuel,
         k < fuel ->
         _find_root h fuel start =
         Some (if boundary h (ancestor k start) then None
               else Some (ancestor k start)).
Proof. intros Hroot Habs. apply find_root_characterised; assumption. Qed.

Lemma C4_find_root_nearest_below_boundary_witness :
  root_mounted (sample_host Subprocess.NotStarted [] [lit "/repo/.git"] [])
  /\ PosixPath.isabs (lit "/repo/src") = true
  /\ exists k,
       k <= List.length (lit "/repo/src")
       /\ (forall j, j < k ->
             boundary (sample_host Subprocess.NotStarted [] [lit "/repo/.git"] [])
               (ancestor j (lit "/repo/src")) = false
             /\ has_git (sample_host Subprocess.NotStarted [] [lit "/repo/.git"] [])
                  (ancestor j (lit "/repo/src")) = false)
       /\ (boundary (sample_host Subprocess.NotStarted [] [lit "/repo/.git"] [])
             (ancestor k (lit "/repo/src")) = true
           \/ has_git (sample_host Subprocess.NotStarted [] [lit "/repo/.git"] [])
                (ancestor k (lit "/repo/src")) = true)
       /\ forall fuel,
            k < fuel ->
            _find_root (sample_host Subprocess.NotStarted [] [lit "/repo/.git"] [])
              fuel (lit "/repo/src") =
            Some (if boundary
                       (sample_host Subprocess.NotStarted [] [lit "/repo/.git"] [])
                       (ancestor k (lit "/repo/src"))
                  then None
                  else Some (ancestor k (lit "/repo/src"))).
Proof.
  split; [apply sample_host_root_mounted|].
  split; [reflexivity|].
  apply (C4_find_root_nearest_below_boundary
           (sample_host Subprocess.NotStarted [] [lit "/repo/.git"] [])
           (lit "/repo/src")).
  - apply sample_host_root_mounted.
  - reflexivity.
Defined.

(** The lookup on an example: from [/repo/src/lib], with the metadata in
    [/repo], and with [/repo] a mount point. *)
Example find_root_example :
  _find_root (sample_host Subprocess.NotStarted [] [lit "/repo/.git"] []) 5
    (lit "/repo/src/lib") = Some (Some (lit "/repo"))
  /\ _find_root (sample_host Subprocess.NotStarted [] [lit "/repo/.git"]
                   [lit "/repo"]) 5
       (lit "/repo/src/lib") = Some None.
Proof. split; vm_compute; reflexivity. Qed.

(** C6: from an absolute start path none of whose ancestors (itself
    included) holds the metadata directory, on a filesystem that reports
    the root directory as a mount point, the lookup returns, within as
    many rounds as the path has characters plus one, and answers absent. *)
Theorem C6_find_root_terminates_absent (h : host) (start : str) :
  root_mounted h ->
  PosixPath.isabs start = true ->
  (forall k, has_git h (ancestor k start) = false) ->
  forall fuel,
    List.length start < fuel ->
    _find_root h fuel start = Some None.
Proof.
  intros Hroot Habs Hnone fuel Hfuel.
  destruct (find_root_characterised h Hroot start Habs)
    as (k & Hk & _ & Hstop & Hrun).
  rewrite (Hrun fuel ltac:(lia)).
  destruct Hstop as [Hb|Hg]; [rewrite Hb; reflexivity|].
  rewrite Hnone in Hg; discriminate.
Qed.

Lemma C6_find_root_terminates_absent_witness :
  _find_root calm_host 12 (lit "/home/user") = Some None.
Proof.
  apply (C6_find_root_terminates_absent calm_host (lit "/home/user")).
  - apply sample_host_root_mounted.
  - reflexivity.
  - intros k; reflexivity.
  - vm_compute; lia.
Defined.

(** * Further properties of the source and the kind *)

(** ** The listing *)

Lemma status_message_joined :
  join_with (lit " ") [lit "git"; lit "status"; lit "--porcelain"; lit "-uall"]
  = status_message.
Proof. vm_compute; reflexivity. Qed.

(** X1: the listing starts no process when there is no root (absent or
    empty); with a root it prints one message and starts exactly one
    process, [git status --porcelain -uall], in the root, whatever comes
    of it. *)
Theorem gather_candidates_trace (h : host) (root : option str)
  (t : list effect) :
  snd (gather_candidates h root t) =
  t ++ match root with
       | None | Some [] => []
       | Some r => [Printed status_message; Spawned status_args r]
       end.
Proof.
  destruct root as [[|c r]|]; cbn [gather_candidates];
    try (unfold ret; cbn [snd]; rewrite app_nil_r; reflexivity).
  rewrite status_message_joined. fold status_args.
  unfold bind at 1. unfold emit at 1.
  unfold bind at 1. unfold run_command.
  destruct (Subprocess.run false _) as [p|e].
  - unfold lift. cbn [snd].
    destruct (Subprocess.decode_utf8 (Subprocess.stdout p)); cbn [rbind snd];
      rewrite <- app_assoc; reflexivity.
  - destruct e; cbn [snd]; rewrite <- app_assoc; reflexivity.
Qed.

(** X2: with a root, the result of the listing is decided by the
    process alone: [OSError] when it could not be started; otherwise,
    whatever its exit status, the parse of the lines of its output, or
    [UnicodeDecodeError] when the output is not UTF-8. *)
Theorem gather_candidates_result (h : host) (c : char) (r : str)
  (t : list effect) :
  fst (gather_candidates h (Some (c :: r)) t) =
  match spawn h (t ++ [Printed status_message]) status_args (c :: r) with
  | Subprocess.NotStarted => Raise OSError
  | Subprocess.Exited _ output =>
      s <-! Subprocess.decode_utf8 output ;;
      gather_lines (c :: r) (split 10%N s) []
  end.
Proof.
  cbn [gather_candidates].
  rewrite status_message_joined. fold status_args.
  unfold bind at 1. unfold emit at 1.
  unfold bind at 1. unfold run_command.
  destruct (spawn h (t ++ [Printed status_message]) status_args (c :: r))
    as [|rc output]; cbn [Subprocess.run andb fst]; [reflexivity|].
  cbn [Subprocess.stdout].
  destruct (Subprocess.decode_utf8 output); reflexivity.
Qed.

Lemma parse_line_fields (line root : str) (c : candidate) :
  _parse_line line root = Ok c ->
  source__root c = root
  /\ action__path c = PosixPath.join root [slice_from 3 line].
Proof.
  unfold _parse_line.
  destruct (getitem line 0) as [c0|]; cbn [rbind]; [|discriminate].
  destruct (dict_getitem STATUS_MAP c0) as [[? ?]|]; cbn [rbind];
    [|discriminate].
  destruct (getitem line 1) as [c1|]; cbn [rbind]; [|discriminate].
  destruct (dict_getitem STATUS_MAP c1) as [[? ?]|]; cbn [rbind];
    [|discriminate].
  intros H; injection H as <-. split; reflexivity.
Qed.

(** X3: every candidate of a listing carries the root of the listing, so
    the candidates of one listing share one root. *)
Theorem listing_candidates_share_root (root : str) (lines : list str)
  (cs : list candidate) :
  gather_lines root lines [] = Ok cs ->
  Forall (fun c => source__root c = root) cs.
Proof.
  rewrite gather_lines_parse_all. intros H.
  apply parse_all_Forall2 in H.
  induction H as [|l c ls cs Hc _ IH]; constructor; [|exact IH].
  apply (parse_line_fields l root c Hc).
Qed.

Lemma listing_candidates_share_root_witness :
  exists cs,
    gather_lines (lit "/repo") [lit " M a"; lit "?? b"] [] = Ok cs
    /\ Forall (fun c => source__root c = lit "/repo") cs.
Proof.
  eexists; split; [vm_compute; reflexivity|].
  apply (listing_candidates_share_root (lit "/repo") [lit " M a"; lit "?? b"]).
  vm_compute; reflexivity.
Defined.

(** ** The display label *)

(** One case for each entry of the table at the key [x], and one more
    for a key that is none of them. *)
Ltac table_cases_in H x :=
  repeat match type of H with
         | context [N.eqb ?k x] => destruct (N.eqb_spec k x) as [<- | ?]
         end.

(** X4: the display label of a candidate is laid out in fixed columns:
    the two symbols, the label of the index code in 12 columns, then in
    12 columns the label of the tree code, left out when the two codes
    are the same, and from column 29 on the text of the line after its
    first three characters.  The tree column is blank exactly when the
    two codes are the same or the tree code is [' '], whose label is
    empty. *)
Theorem parse_line_word_layout (root : str) (i t : char) (rest : str)
  (c : candidate) :
  _parse_line (i :: t :: rest) root = Ok c ->
  word c =
    symbol_of i ++ symbol_of t ++ lit " " ++ ljust 12 (label_of i) ++ lit " "
    ++ ljust 12 (if char_eqb t i then [] else label_of t) ++ lit " "
    ++ slice_from 3 (i :: t :: rest)
  /\ List.length (word c) = 29 + List.length (slice_from 3 (i :: t :: rest))
  /\ skipn 29 (word c) = slice_from 3 (i :: t :: rest)
  /\ str_eqb (firstn 12 (skipn 16 (word c))) (repeat 32%N 12)
     = char_eqb t i || char_eqb t 32%N.
Proof.
  unfold _parse_line, getitem, STATUS_MAP.
  cbn [nth_error rbind dict_getitem]. unfold char_eqb at 1 2 3 4 5 6 7 8.
  intros H. table_cases_in H i;
    cbv beta iota delta [rbind] in H; try discriminate H;
    cbn [dict_getitem] in H; unfold char_eqb at 1 2 3 4 5 6 7 8 in H;
    table_cases_in H t;
    cbv beta iota delta [rbind] in H; try discriminate H;
    injection H as <-;
    (split; [|split; [|split]]); vm_compute; reflexivity.
Qed.

Lemma parse_line_word_layout_witness :
  exists c,
    _parse_line (lit "M  f.txt") (lit "/repo") = Ok c
    /\ skipn 29 (word c) = lit "f.txt"
    /\ str_eqb (firstn 12 (skipn 16 (word c))) (repeat 32%N 12) = true.
Proof.
  eexists; split; [vm_compute; reflexivity|].
  refine (proj2 (proj2 (parse_line_word_layout (lit "/repo") 77%N 32%N
                          (lit " f.txt") _ _))).
  vm_compute; reflexivity.
Defined.

(** X5: the table gives different codes different symbols and different
    labels, so the symbol shown (or the label) tells which code it was. *)
Theorem status_symbols_distinct (a b : char) :
  known_code a = true ->
  known_code b = true ->
  symbol_of a = symbol_of b \/ label_of a = label_of b ->
  a = b.
Proof.
  unfold known_code, STATUS_MAP. cbn [existsb fst]. unfold char_eqb.
  intros Ha Hb.
  table_cases_in Ha a; try (cbn in Ha; discriminate Ha);
    table_cases_in Hb b; try (cbn in Hb; discriminate Hb);
    intros [H|H]; try reflexivity; vm_compute in H; discriminate H.
Qed.

Lemma status_symbols_distinct_witness : 77%N = 77%N.
Proof.
  apply (status_symbols_distinct 77%N 77%N);
    [reflexivity | reflexivity | left; reflexivity].
Defined.

(** ** The command runner, again *)

Lemma split_not_nil (c : char) (s : str) : split c s <> [].
Proof.
  destruct s as [|x r]; cbn [split]; [discriminate|].
  destruct (char_eqb x c); [discriminate|].
  destruct (split c r); discriminate.
Qed.

(** Joining the pieces of a split gives the text back. *)
Lemma join_split (c : char) (s : str) : join_with [c] (split c s) = s.
Proof.
  induction s as [|x r IH]; [reflexivity|].
  cbn [split]. destruct (char_eqb x c) eqn:E.
  - apply char_eqb_eq in E; subst x.
    pose proof (split_not_nil c r) as N.
    destruct (split c r) as [|p ps]; [contradiction|].
    cbn [join_with app] in *. rewrite IH. reflexivity.
  - pose proof (split_not_nil c r) as N.
    destruct (split c r) as [|p ps]; [contradiction|].
    destruct ps as [|q qs]; cbn [join_with] in *.
    + rewrite IH; reflexivity.
    + rewrite <- IH. reflexivity.
Qed.

(** X6: [run_command] starts exactly one process, the one it is given,
    in the directory it is given.  When it returns, the process did run
    and its output was UTF-8; the lines returned are never none, and
    joined by newlines they are the decoded output (so an output that
    ends in a newline gives a last, empty line). *)
Theorem run_command_lines (h : host) (argv : list str) (cwd : str)
  (t : list effect) (lines : list str) :
  fst (run_command h argv cwd t) = Ok lines ->
  snd (run_command h argv cwd t) = t ++ [Spawned argv cwd]
  /\ lines <> []
  /\ exists rc output,
       spawn h t argv cwd = Subprocess.Exited rc output
       /\ Subprocess.decode_utf8 output = Ok (join_with [10%N] lines).
Proof.
  unfold run_command.
  destruct (spawn h t argv cwd) as [|rc output];
    cbn [Subprocess.run andb fst snd]; [discriminate|].
  cbn [Subprocess.stdout].
  destruct (Subprocess.decode_utf8 output) as [s|e] eqn:D; cbn [rbind];
    [|discriminate].
  intros H; injection H as <-.
  split; [reflexivity|]. split; [apply split_not_nil|].
  exists rc, output. rewrite join_split. split; [reflexivity | exact D].
Qed.

Lemma run_command_lines_witness :
  snd (run_command
         (sample_host (Subprocess.Exited 1 (Subprocess.ascii_bytes " M a"))
            [] [] [])
         status_args (lit "/repo") [])
  = [Spawned status_args (lit "/repo")]
  /\ [lit " M a"] <> []
  /\ exists rc output,
       Subprocess.Exited 1 (Subprocess.ascii_bytes " M a")
       = Subprocess.Exited rc output
       /\ Subprocess.decode_utf8 output = Ok (join_with [10%N] [lit " M a"]).
Proof.
  apply (run_command_lines
           (sample_host (Subprocess.Exited 1 (Subprocess.ascii_bytes " M a"))
              [] [] [])
           status_args (lit "/repo") [] [lit " M a"]).
  vm_compute; reflexivity.
Defined.

(** ** The add and patch actions *)

Lemma append_relpaths_ok (h : host) (root : str) (targets : list candidate) :
  Forall (fun c => action__path c <> []) targets ->
  forall args, exists args', append_relpaths h root targets args = Ok args'.
Proof.
  induction 1 as [|c cs Hc _ IH]; intros args; cbn [append_relpaths].
  - eauto.
  - destruct (relpath_ok (os_getcwd h) (action__path c) root Hc) as [p ->].
    cbn [rbind]. apply IH.
Qed.

Lemma append_relpaths_relative (h : host) (root : str)
  (targets : list candidate) (args : list str) :
  Forall (fun c => action__path c <> []) targets ->
  exists ps,
    append_relpaths h root targets args = Ok (args ++ ps)
    /\ Forall2 (fun c p =>
                  PosixPath.relpath (os_getcwd h) (action__path c) root = Ok p
                  /\ PosixPath.isabs p = false)
               targets ps.
Proof.
  intros Hne.
  destruct (append_relpaths_ok h root targets Hne args) as [args' E].
  destruct (append_relpaths_spec h root targets args args' E) as (ps & -> & F).
  exists ps; split; [exact E|].
  clear E Hne. induction F as [|c p cs ps' Hp F IH]; constructor; [|exact IH].
  split; [exact Hp | eapply relpath_not_absolute; exact Hp].
Qed.

(** X7: for a selection that is not empty and whose candidates all have
    a path, the add action starts exactly one process: [git add] followed
    by one argument for each candidate, in order, in the root of the
    first candidate; each argument is the candidate's path made relative
    to that root, and none is absolute. *)
Theorem action_add_one_command (h : host) (first : candidate)
  (rest : list candidate) (t : list effect) :
  Forall (fun c => action__path c <> []) (first :: rest) ->
  exists ps,
    snd (action_add h (first :: rest) t) =
    t ++ [Spawned (lit "git" :: lit "add" :: ps) (source__root first)]
    /\ Forall2 (fun c p =>
                  PosixPath.relpath (os_getcwd h) (action__path c)
                    (source__root first) = Ok p
                  /\ PosixPath.isabs p = false)
               (first :: rest) ps.
Proof.
  intros Hne.
  destruct (append_relpaths_relative h (source__root first) (first :: rest)
              [lit "git"; lit "add"] Hne) as (ps & E & F).
  exists ps; split; [|exact F].
  unfold action_add. cbn [first_target].
  unfold bind at 1. unfold lift at 1.
  unfold bind at 1. unfold lift at 1. rewrite E.
  unfold bind at 1. unfold run_command.
  destruct (Subprocess.run false _) as [p|e].
  - destruct (Subprocess.decode_utf8 (Subprocess.stdout p)); reflexivity.
  - destruct e; reflexivity.
Qed.

Lemma action_add_one_command_witness :
  exists ps,
    snd (action_add calm_host
           [sample_target "/repo/a.txt" false true;
            sample_target "/repo/src/b.txt" true false] []) =
    [] ++ [Spawned (lit "git" :: lit "add" :: ps) (lit "/repo")]
    /\ Forall2 (fun c p =>
                  PosixPath.relpath (os_getcwd calm_host) (action__path c)
                    (lit "/repo") = Ok p
                  /\ PosixPath.isabs p = false)
               [sample_target "/repo/a.txt" false true;
                sample_target "/repo/src/b.txt" true false] ps.
Proof.
  apply (action_add_one_command calm_host
           (sample_target "/repo/a.txt" false true)
           [sample_target "/repo/src/b.txt" true false] []).
  repeat constructor; discriminate.
Defined.

(** X8: for such a selection the patch action starts no process; it
    gives the editor one command, [terminal git add], the relative paths
    separated by spaces, and [--patch], and ends normally. *)
Theorem action_patch_one_terminal (h : host) (first : candidate)
  (rest : list candidate) (t : list effect) :
  Forall (fun c => action__path c <> []) (first :: rest) ->
  exists ps,
    action_patch h (first :: rest) t =
    (Ok tt,
     t ++ [VimCommand (lit "terminal git add " ++ join_with (lit " ") ps
                       ++ lit " --patch")])
    /\ Forall2 (fun c p =>
                  PosixPath.relpath (os_getcwd h) (action__path c)
                    (source__root first) = Ok p
                  /\ PosixPath.isabs p = false)
               (first :: rest) ps.
Proof.
  intros Hne.
  destruct (append_relpaths_relative h (source__root first) (first :: rest)
              [] Hne) as (ps & E & F).
  exists ps; split; [|exact F].
  unfold action_patch. cbn [first_target].
  unfold bind at 1. unfold lift at 1.
  unfold bind at 1. unfold lift at 1. rewrite E.
  reflexivity.
Qed.

Lemma action_patch_one_terminal_witness :
  exists ps,
    action_patch calm_host [sample_target "/repo/a.txt" false true] [] =
    (Ok tt,
     [] ++ [VimCommand (lit "terminal git add " ++ join_with (lit " ") ps
                        ++ lit " --patch")])
    /\ Forall2 (fun c p =>
                  PosixPath.relpath (os_getcwd calm_host) (action__path c)
                    (lit "/repo") = Ok p
                  /\ PosixPath.isabs p = false)
               [sample_target "/repo/a.txt" false true] ps.
Proof.
  apply (action_patch_one_terminal calm_host
           (sample_target "/repo/a.txt" false true) [] []).
  repeat constructor; discriminate.
Defined.

(** ** The reset action, again *)

Lemma run_command_snd (h : host) (argv : list str) (cwd : str)
  (t : list effect) :
  snd (run_command h argv cwd t) = t ++ [Spawned argv cwd].
Proof.
  unfold run_command.
  destruct (Subprocess.run false _) as [p|e]; [reflexivity|].
  destruct e; reflexivity.
Qed.

(** Running a command and then telling the editor to check the files. *)
Lemma run_then_checktime (h : host) (argv : list str) (root : str)
  (t : list effect) :
  ((run_command h argv root ;;; ret tt) ;;;
   emit (VimCommand (lit "checktime"))) t =
  match fst (run_command h argv root t) with
  | Ok _ => (Ok tt, t ++ [Spawned argv root; VimCommand (lit "checktime")])
  | Raise e => (Raise e, t ++ [Spawned argv root])
  end.
Proof.
  unfold bind.
  pose proof (run_command_snd h argv root t) as S.
  destruct (run_command h argv root t) as [[lines|e] t']; cbn [fst snd] in *;
    subst t'; [|reflexivity].
  unfold ret, emit. rewrite <- app_assoc. reflexivity.
Qed.

Lemma shlex_step_out (l : Shlex.lexer) (c : char) :
  exists ext, Shlex.out (Shlex.step l c) = Shlex.out l ++ ext.
Proof.
  unfold Shlex.step, Shlex.emit.
  destruct (Shlex.st l);
    repeat match goal with
           | |- context [if ?b then _ else _] => destruct b
           end;
    cbn [Shlex.out];
    first [ exists []; rewrite app_nil_r; reflexivity | eexists; reflexivity ].
Qed.

Lemma shlex_fold_out (s : str) (l : Shlex.lexer) :
  exists ext, Shlex.out (fold_left Shlex.step s l) = Shlex.out l ++ ext.
Proof.
  revert l; induction s as [|c s IH]; intros l; cbn [fold_left].
  - exists []; rewrite app_nil_r; reflexivity.
  - destruct (IH (Shlex.step l c)) as [e2 ->].
    destruct (shlex_step_out l c) as [e1 ->].
    exists (e1 ++ e2); rewrite app_assoc; reflexivity.
Qed.

(** The words that [shlex] has given out stay, whatever text follows. *)
Lemma shlex_split_keeps_words (pre p : str) (argv : list str) :
  Shlex.split (pre ++ p) = Ok argv ->
  exists ext, argv = Shlex.out (fold_left Shlex.step pre Shlex.init) ++ ext.
Proof.
  unfold Shlex.split. rewrite fold_left_app.
  destruct (shlex_fold_out p (fold_left Shlex.step pre Shlex.init))
    as [e1 E1].
  set (l := fold_left Shlex.step p _) in *.
  unfold Shlex.finish, Shlex.emit.
  destruct (Shlex.st l); try discriminate;
    (destruct (_ || _); cbn [Shlex.out]; intros H; injection H as <-;
     rewrite E1;
     [ exists (e1 ++ [Shlex.token l]); rewrite app_assoc; reflexivity
     | exists e1; reflexivity ]).
Qed.

Lemma git_command_split (p : str) (argv : list str) :
  Shlex.split (lit "git checkout -- " ++ p) = Ok argv
  \/ Shlex.split (lit "git reset HEAD -- " ++ p) = Ok argv ->
  git_command argv = true.
Proof.
  intros [H|H]; apply shlex_split_keeps_words in H as [ext ->];
    unfold git_command.
  - apply orb_true_iff; left. vm_compute. reflexivity.
  - apply orb_true_iff; right. vm_compute. reflexivity.
Qed.

Lemma run_split_allowed (h : host) (text root : str) (t : list effect) :
  (forall argv, Shlex.split text = Ok argv -> git_command argv = true) ->
  exists new,
    snd ((run_split h text root ;;; emit (VimCommand (lit "checktime"))) t)
    = t ++ new
    /\ forallb (reset_effect_allowed root) new = true.
Proof.
  intros G. unfold run_split.
  unfold bind at 1. unfold bind at 1. unfold lift at 1.
  destruct (Shlex.split text) as [argv|e].
  - pose proof (run_then_checktime h argv root t) as R.
    unfold bind at 1 in R. rewrite R.
    destruct (fst (run_command h argv root t)); cbn [snd].
    + eexists; split; [reflexivity|].
      cbn [forallb reset_effect_allowed].
      rewrite str_eqb_refl, (G argv eq_refl). reflexivity.
    + eexists; split; [reflexivity|].
      cbn [forallb reset_effect_allowed].
      rewrite str_eqb_refl, (G argv eq_refl). reflexivity.
  - exists []; cbn [snd]. rewrite app_nil_r. split; reflexivity.
Qed.

(** X9: for a file that git knows (staged, or modified in the tree, or
    both), whatever its name and whatever the user answers, the body of
    the reset loop does nothing but ask its question, start a process in
    the root whose arguments begin [git checkout --] or
    [git reset HEAD --], and tell the editor to check the files' times:
    it never removes the file, and a name cannot replace the command. *)
Theorem reset_tracked_only_git (h : host) (remove cwd : str)
  (target : candidate) (w : list effect) :
  source__staged target || source__tree target = true ->
  exists new,
    snd (action_reset_target h remove cwd target w) = w ++ new
    /\ forallb (reset_effect_allowed (source__root target)) new = true.
Proof.
  intros Hflag. unfold action_reset_target.
  unfold bind at 1. unfold lift at 1.
  destruct (PosixPath.relpath (os_getcwd h) (action__path target)
              (source__root target)) as [path|e].
  2:{ exists []; cbn [snd]; rewrite app_nil_r; split; reflexivity. }
  assert (Gc : forall argv,
             Shlex.split (lit "git checkout -- " ++ path) = Ok argv ->
             git_command argv = true).
  { intros argv H. apply (git_command_split path). left; exact H. }
  assert (Gr : forall argv,
             Shlex.split (lit "git reset HEAD -- " ++ path) = Ok argv ->
             git_command argv = true).
  { intros argv H. apply (git_command_split path). right; exact H. }
  destruct (source__staged target), (source__tree target);
    try discriminate Hflag; cbn [andb].
  - unfold bind at 1. unfold bind at 1. unfold util_input at 1.
    fold reset_prompt.
    set (w1 := w ++ [Asked reset_prompt []]).
    assert (A : forall m : M unit,
               (exists new, snd ((m ;;; emit (VimCommand (lit "checktime"))) w1)
                            = w1 ++ new
                            /\ forallb (reset_effect_allowed
                                          (source__root target)) new = true) ->
               exists new,
                 snd (match m w1 with
                      | (Ok a, t') => emit (VimCommand (lit "checktime")) t'
                      | (Raise e, t') => (Raise e, t')
                      end) = w ++ new
                 /\ forallb (reset_effect_allowed (source__root target)) new
                    = true).
    { intros m (new & E & F). unfold bind in E.
      exists (Asked reset_prompt [] :: new). split.
      - rewrite E. unfold w1. rewrite <- app_assoc. reflexivity.
      - cbn [forallb reset_effect_allowed]. rewrite str_eqb_refl. exact F. }
    destruct (str_eqb (reply h w reset_prompt []) (lit "c"));
      [apply A, run_split_allowed, Gc|].
    destruct (str_eqb (reply h w reset_prompt []) (lit "r"));
      [apply A, run_split_allowed, Gr|].
    apply A. exists [VimCommand (lit "checktime")]. split; reflexivity.
  - apply run_split_allowed, Gr.
  - apply run_split_allowed, Gc.
Qed.

Lemma reset_tracked_only_git_witness :
  exists new,
    snd (action_reset_target calm_host (lit "delete") (lit "/repo")
           (sample_target "/repo/-f --force" true false) []) = [] ++ new
    /\ forallb (reset_effect_allowed (lit "/repo")) new = true.
Proof.
  apply (reset_tracked_only_git calm_host (lit "delete") (lit "/repo")
           (sample_target "/repo/-f --force" true false) []).
  reflexivity.
Defined.

(** X10: for a file that is only staged, or only modified in the tree,
    and whose relative path is not empty and has no white space, quote
    or backslash, the body of the reset loop starts exactly
    [git reset HEAD -- path], respectively [git checkout -- path], in
    the root; it tells the editor to check the files' times when the
    command could be run, and raises what the command runner raises
    otherwise. *)
Theorem reset_plain_path_exact (h : host) (remove cwd : str)
  (target : candidate) (w : list effect) (p : str) :
  xorb (source__staged target) (source__tree target) = true ->
  PosixPath.relpath (os_getcwd h) (action__path target) (source__root target)
  = Ok p ->
  forallb plain p = true ->
  p <> [] ->
  action_reset_target h remove cwd target w =
  match fst (run_command h
               (if source__tree target
                then [lit "git"; lit "checkout"; lit "--"; p]
                else [lit "git"; lit "reset"; lit "HEAD"; lit "--"; p])
               (source__root target) w) with
  | Ok _ =>
      (Ok tt,
       w ++ [Spawned (if source__tree target
                      then [lit "git"; lit "checkout"; lit "--"; p]
                      else [lit "git"; lit "reset"; lit "HEAD"; lit "--"; p])
               (source__root target);
             VimCommand (lit "checktime")])
  | Raise e =>
      (Raise e,
       w ++ [Spawned (if source__tree target
                      then [lit "git"; lit "checkout"; lit "--"; p]
                      else [lit "git"; lit "reset"; lit "HEAD"; lit "--"; p])
               (source__root target)])
  end.
Proof.
  intros Hflag E Hp Hne.
  destruct (shlex_split_plain_path p Hp Hne) as [Sc Sr].
  unfold action_reset_target.
  unfold bind at 1. unfold lift at 1. rewrite E.
  destruct (source__staged target), (source__tree target);
    try discriminate Hflag; cbn [andb].
  - rewrite <- run_then_checktime. unfold run_split.
    unfold bind at 2. unfold lift at 1. rewrite Sr. reflexivity.
  - rewrite <- run_then_checktime. unfold run_split.
    unfold bind at 2. unfold lift at 1. rewrite Sc. reflexivity.
Qed.

Lemma reset_plain_path_exact_witness :
  action_reset_target calm_host (lit "delete") (lit "/repo")
    (sample_target "/repo/src/a.txt" false true) [] =
  (Ok tt,
   [Spawned [lit "git"; lit "checkout"; lit "--"; lit "src/a.txt"]
      (lit "/repo");
    VimCommand (lit "checktime")]).
Proof.
  refine (reset_plain_path_exact calm_host (lit "delete") (lit "/repo")
            (sample_target "/repo/src/a.txt" false true) [] (lit "src/a.txt")
            _ _ _ _).
  - reflexivity.
  - vm_compute; reflexivity.
  - vm_compute; reflexivity.
  - discriminate.
Defined.



Lemma reset_plain_path_runs (h : host) (remove cwd : str)
  (target : candidate) (w : list effect) (p : str) :
  xorb (source__staged target) (source__tree target) = true ->
  PosixPath.relpath (os_getcwd h) (action__path target) (source__root target)
  = Ok p ->
  forallb plain p = true ->
  p <> [] ->
  action_reset_target h remove cwd target w =
  match fst (run_command h
               (if source__tree target
                then [lit "git"; lit "checkout"; lit "--"; p]
                else [lit "git"; lit "reset"; lit "HEAD"; lit "--"; p])
               (source__root target) w) with
  | Ok _ =>
      (Ok tt,
       w ++ [Spawned (if source__tree target
                      then [lit "git"; lit "checkout"; lit "--"; p]
                      else [lit "git"; lit "reset"; lit "HEAD"; lit "--"; p])
               (source__root target);
             VimCommand (lit "checktime")])
  | Raise e =>
      (Raise e,
       w ++ [Spawned (if source__tree target
                      then [lit "git"; lit "checkout"; lit "--"; p]
                      else [lit "git"; lit "reset"; lit "HEAD"; lit "--"; p])
               (source__root target)])
  end.
Proof.
  intros Hflag E Hp Hne.
  destruct (shlex_split_plain_path p Hp Hne) as [Sc Sr].
  unfold action_reset_target.
  unfold bind at 1. unfold lift at 1. rewrite E.
  destruct (source__staged target), (source__tree target);
    try discriminate Hflag; cbn [andb].
  - rewrite <- run_then_checktime. unfold run_split.
    unfold bind at 2. unfold lift at 1. rewrite Sr. reflexivity.
  - rewrite <- run_then_checktime. unfold run_split.
    unfold bind at 2. unfold lift at 1. rewrite Sc. reflexivity.
Qed.

(** X12: on a host where every command can be run, for a selection of
    targets that each have exactly one flag set and a relative path that
    is not empty and has no white space, quote or backslash, the reset
    action ends normally, having run for each target, in the order of
    the selection, its one git command ([git checkout -- path] when the
    target is modified in the tree, [git reset HEAD -- path] when it is
    staged) in the target's root, each followed by [checktime]; the user
    is asked nothing and nothing is removed. *)
Theorem action_reset_batch (h : host) (remove : str)
  (targets : list candidate) (w : list effect) :
  processes_run h ->
  forallb (plain_single_flag h) targets = true ->
  action_reset h remove targets w =
  (Ok tt,
   w ++ flat_map (fun target =>
                    [Spawned (reset_argv h target) (source__root target);
                     VimCommand (lit "checktime")])
          targets).
Proof.
  intros Hrun. unfold action_reset.
  set (cwd := PosixPath.normpath _).
  revert w; induction targets as [|x xs IH]; intros w Hall;
    cbn [for_each flat_map forallb] in *.
  - unfold ret. rewrite app_nil_r. reflexivity.
  - apply andb_true_iff in Hall as [Hx Hall].
    unfold plain_single_flag in Hx. apply andb_true_iff in Hx as [Hflag Hx].
    unfold reset_argv at 1.
    destruct (PosixPath.relpath (os_getcwd h) (action__path x)
                (source__root x)) as [p|e] eqn:E; [|discriminate].
    apply andb_true_iff in Hx as [Hp Hne].
    assert (Hne' : p <> []) by (destruct p; [discriminate Hne | discriminate]).
    unfold bind.
    rewrite (reset_plain_path_runs h remove cwd x w p Hflag E Hp Hne').
    specialize (Hrun w
                  (if source__tree x
                   then [lit "git"; lit "checkout"; lit "--"; p]
                   else [lit "git"; lit "reset"; lit "HEAD"; lit "--"; p])
                  (source__root x)).
    destruct (fst (run_command h _ (source__root x) w)); [|discriminate].
    rewrite (IH _ Hall), <- app_assoc. reflexivity.
Qed.

Lemma calm_host_processes_run : processes_run calm_host.
Proof. intros t argv cwd. reflexivity. Qed.

Lemma action_reset_batch_witness :
  action_reset calm_host (lit "delete")
    [sample_target "/repo/a.txt" false true;
     sample_target "/repo/src/b.txt" true false] [] =
  (Ok tt,
   [Spawned [lit "git"; lit "checkout"; lit "--"; lit "a.txt"] (lit "/repo");
    VimCommand (lit "checktime");
    Spawned [lit "git"; lit "reset"; lit "HEAD"; lit "--"; lit "src/b.txt"]
      (lit "/repo");
    VimCommand (lit "checktime")]).
Proof.
  apply (action_reset_batch calm_host (lit "delete")
           [sample_target "/repo/a.txt" false true;
            sample_target "/repo/src/b.txt" true false] []).
  - apply calm_host_processes_run.
  - vm_compute; reflexivity.
Defined.

Lemma reset_untracked_requests (h : host) (exists_Rm : Z)
  (executable_rmtrash : bool) (cwd : str) (target : candidate)
  (w : list effect) :
  source__staged target = false ->
  source__tree target = false ->
  action__path target <> [] ->
  exists p r,
    PosixPath.relpath (os_getcwd h) (action__path target) cwd = Ok p
    /\ action_reset_target h (Kind_remove exists_Rm executable_rmtrash) cwd
         target w =
       (r,
        w ++ removal exists_Rm executable_rmtrash (source__root target)
               (action__path target) p
          :: match r with
             | Ok _ => [VimCommand (lit "checktime")]
             | Raise _ => []
             end).
Proof.
  intros Hs Ht Hne.
  destruct (relpath_ok (os_getcwd h) (action__path target) cwd Hne) as [p Ep].
  destruct (relpath_ok (os_getcwd h) (action__path target)
              (source__root target) Hne) as [q Eq].
  exists p.
  unfold action_reset_target.
  unfold bind at 1. unfold lift at 1. rewrite Eq, Hs, Ht. cbn [andb].
  unfold Kind_remove, removal.
  destruct (Z.eqb exists_Rm 2).
  - exists (Ok tt). split; [exact Ep|].
    change (str_eqb (lit "rm") (lit "rm")) with true. cbv iota.
    unfold bind at 1. unfold bind at 1. unfold lift at 1. rewrite Ep.
    unfold emit. rewrite <- app_assoc. reflexivity.
  - destruct executable_rmtrash.
    + change (str_eqb (lit "rmtrash") (lit "rm")) with false.
      change (str_eqb (lit "rmtrash") (lit "rmtrash")) with true. cbv iota.
      pose proof (run_then_checktime h [lit "rmtrash"; action__path target]
                    (source__root target) w) as R.
      destruct (fst (run_command h [lit "rmtrash"; action__path target]
                       (source__root target) w)) as [ls|e].
      * exists (Ok tt). split; [exact Ep | exact R].
      * exists (Raise e). split; [exact Ep | exact R].
    + exists (Ok tt). split; [exact Ep|].
      change (str_eqb (lit "delete") (lit "rm")) with false.
      change (str_eqb (lit "delete") (lit "rmtrash")) with false. cbv iota.
      unfold bind, emit. rewrite <- app_assoc. reflexivity.
Qed.

(** X23: the decision table of the reset action, as it is observed.  For
    a target whose path relative to its root is not empty and has no
    white space, quote or backslash, the first thing the body of the loop
    does is what the table gives for the two flags: it asks the user
    when the target is staged and modified in the tree; it runs the
    argument vector [git reset HEAD -- path] in the root when the target
    is only staged, and [git checkout -- path] when it is only modified
    in the tree; and when neither flag is set it requests the removal of
    the file by the means the kind selected. *)
Theorem reset_decision_observed (h : host) (exists_Rm : Z)
  (executable_rmtrash : bool) (cwd : str) (target : candidate)
  (w : list effect) (p : str) :
  PosixPath.relpath (os_getcwd h) (action__path target) (source__root target)
  = Ok p ->
  forallb plain p = true ->
  p <> [] ->
  exists q rest,
    PosixPath.relpath (os_getcwd h) (action__path target) cwd = Ok q
    /\ snd (action_reset_target h (Kind_remove exists_Rm executable_rmtrash)
              cwd target w) =
       w ++ decision_effect
              (reset_decision (source__staged target) (source__tree target))
              (source__root target) p
              (removal exists_Rm executable_rmtrash (source__root target)
                 (action__path target) q)
         :: rest.
Proof.
  intros E Hp Hne.
  assert (Hpath : action__path target <> []).
  { intros N. rewrite N in E. discriminate E. }
  destruct (relpath_ok (os_getcwd h) (action__path target) cwd Hpath)
    as [q Eq].
  destruct (source__staged target) eqn:Hs, (source__tree target) eqn:Ht;
    cbn [reset_decision decision_effect].
  - exists q.
    assert (Gc : forall argv,
               Shlex.split (lit "git checkout -- " ++ p) = Ok argv ->
               git_command argv = true).
    { intros argv H. apply (git_command_split p). left; exact H. }
    assert (Gr : forall argv,
               Shlex.split (lit "git reset HEAD -- " ++ p) = Ok argv ->
               git_command argv = true).
    { intros argv H. apply (git_command_split p). right; exact H. }
    unfold action_reset_target.
    unfold bind at 1. unfold lift at 1. rewrite E, Hs, Ht. cbn [andb].
    unfold bind at 1. unfold bind at 1. unfold util_input at 1.
    fold reset_prompt.
    set (w1 := w ++ [Asked reset_prompt []]).
    assert (A : forall m : M unit,
               (exists new,
                  snd ((m ;;; emit (VimCommand (lit "checktime"))) w1)
                  = w1 ++ new
                  /\ forallb (reset_effect_allowed (source__root target)) new
                     = true) ->
               exists rest,
                 PosixPath.relpath (os_getcwd h) (action__path target) cwd
                 = Ok q
                 /\ snd (match m w1 with
                         | (Ok a, t') => emit (VimCommand (lit "checktime")) t'
                         | (Raise e, t') => (Raise e, t')
                         end) = w ++ Asked reset_prompt [] :: rest).
    { intros m (new & En & _). unfold bind in En.
      exists new. split; [exact Eq|].
      rewrite En. unfold w1. rewrite <- app_assoc. reflexivity. }
    destruct (str_eqb (reply h w reset_prompt []) (lit "c"));
      [apply A, run_split_allowed, Gc|].
    destruct (str_eqb (reply h w reset_prompt []) (lit "r"));
      [apply A, run_split_allowed, Gr|].
    apply A. exists [VimCommand (lit "checktime")]. split; reflexivity.
  - exists q.
    rewrite (reset_plain_path_runs h _ cwd target w p); try assumption;
      [|rewrite Hs, Ht; reflexivity].
    rewrite Ht.
    destruct (fst (run_command h _ (source__root target) w)); cbn [snd];
      eexists; (split; [exact Eq | reflexivity]).
  - exists q.
    rewrite (reset_plain_path_runs h _ cwd target w p); try assumption;
      [|rewrite Hs, Ht; reflexivity].
    rewrite Ht.
    destruct (fst (run_command h _ (source__root target) w)); cbn [snd];
      eexists; (split; [exact Eq | reflexivity]).
  - destruct (reset_untracked_requests h exists_Rm executable_rmtrash cwd
                target w Hs Ht Hpath) as (q' & r & Eq' & R).
    exists q'. rewrite R. cbn [snd]. eexists; split; [exact Eq' | reflexivity].
Qed.

Lemma reset_decision_observed_witness :
  exists q rest,
    PosixPath.relpath (os_getcwd calm_host) (lit "/repo/a.txt") (lit "/repo")
    = Ok q
    /\ snd (action_reset_target calm_host (Kind_remove 0 false) (lit "/repo")
              (sample_target "/repo/a.txt" true false) []) =
       [] ++ decision_effect (reset_decision true false) (lit "/repo")
               (lit "a.txt")
               (removal 0 false (lit "/repo") (lit "/repo/a.txt") q)
          :: rest.
Proof.
  apply (reset_decision_observed calm_host 0 false (lit "/repo")
           (sample_target "/repo/a.txt" true false) [] (lit "a.txt")).
  - vm_compute; reflexivity.
  - vm_compute; reflexivity.
  - discriminate.
Defined.

(** ** The diff preview *)

Lemma candidate_eqb_refl (c : candidate) : candidate_eqb c c = true.
Proof.
  unfold candidate_eqb. rewrite !str_eqb_refl, !Bool.eqb_reflx. reflexivity.
Qed.

(** After the preview action ended normally for a target, the candidate
    it remembers equals the target. *)
Lemma action_delete_remembers (h : host) (preview_window : bool)
  (previewed : option candidate) (prev_id : str) (target : candidate)
  (rest : list candidate) (t t1 : list effect) (st : option candidate) :
  action_delete h preview_window previewed prev_id (target :: rest) t
  = (Ok st, t1) ->
  exists p, st = Some p /\ candidate_eqb p target = true.
Proof.
  unfold action_delete. cbn [first_target].
  unfold bind at 1. unfold lift at 1.
  destruct (preview_window && _) eqn:C.
  - unfold bind, emit, ret. intros H; injection H as <- _.
    apply andb_true_iff in C as [_ C].
    destruct previewed as [p|]; [|discriminate]. eauto.
  - unfold bind at 1. unfold lift at 1.
    destruct (PosixPath.relpath _ _ _); [|discriminate].
    destruct (source__staged target), (source__tree target);
      unfold bind, util_input, emit, ret; intros H; injection H as <- _;
      exists target; split; auto using candidate_eqb_refl.
Qed.

(** X13: the preview action toggles: after it ended normally for a
    target, invoking it again for that target while a preview window is
    open closes the preview (one [pclose!]), asks nothing, shows no diff
    and keeps what it remembers. *)
Theorem action_delete_toggles (h h' : host) (preview_window : bool)
  (previewed : option candidate) (prev_id prev_id' : str)
  (target : candidate) (rest rest' : list candidate) (t t1 : list effect)
  (st : option candidate) :
  action_delete h preview_window previewed prev_id (target :: rest) t
  = (Ok st, t1) ->
  action_delete h' true st prev_id' (target :: rest') t1
  = (Ok st, t1 ++ [VimCommand (lit "pclose!")]).
Proof.
  intros H.
  destruct (action_delete_remembers _ _ _ _ _ _ _ _ _ H) as (p & -> & E).
  unfold action_delete. cbn [first_target].
  unfold bind at 1. unfold lift at 1. cbn [andb]. rewrite E.
  reflexivity.
Qed.

Lemma action_delete_toggles_witness :
  action_delete calm_host true
    (Some (sample_target "/repo/a.txt" true false)) (lit "1001")
    [sample_target "/repo/a.txt" true false]
    [VimCall (lit "win_getid") [];
     VimCall (lit "easygit#diffPreview") [lit "--cached a.txt"];
     VimCall (lit "win_gotoid") [lit "1000"]]
  = (Ok (Some (sample_target "/repo/a.txt" true false)),
     [VimCall (lit "win_getid") [];
      VimCall (lit "easygit#diffPreview") [lit "--cached a.txt"];
      VimCall (lit "win_gotoid") [lit "1000"]]
     ++ [VimCommand (lit "pclose!")]).
Proof.
  apply (action_delete_toggles calm_host calm_host false None
           (lit "1000") (lit "1001")
           (sample_target "/repo/a.txt" true false) [] [] []).
  vm_compute; reflexivity.
Defined.

(** X14: when no preview window is open, the preview action, for a
    target whose path relative to its root is [p], asks its question
    only if the target is both staged and modified in the tree; it shows
    the diff of [p], against the index ([--cached]) exactly when the
    target is staged and either not modified in the tree or the answer is
    [y]; it goes back to the window it came from, starts no process and
    remembers the target.  Only the first candidate of the selection
    counts. *)
Theorem action_delete_shows_diff (h : host) (previewed : option candidate)
  (prev_id : str) (target : candidate) (rest : list candidate)
  (t : list effect) (p : str) :
  PosixPath.relpath (os_getcwd h) (action__path target) (source__root target)
  = Ok p ->
  action_delete h false previewed prev_id (target :: rest) t =
  (Ok (Some target),
   t ++ (if source__staged target && source__tree target
         then [Asked diff_prompt (lit "y")] else [])
     ++ [VimCall (lit "win_getid") [];
         VimCall (lit "easygit#diffPreview")
           [(if source__staged target
                && (negb (source__tree target)
                    || str_eqb (reply h t diff_prompt (lit "y")) (lit "y"))
             then lit "--cached " else []) ++ p];
         VimCall (lit "win_gotoid") [prev_id]]).
Proof.
  intros E. unfold action_delete. cbn [first_target andb].
  unfold bind at 1. unfold lift at 1.
  unfold bind at 1. unfold lift at 1. rewrite E.
  fold diff_prompt.
  destruct (source__staged target), (source__tree target);
    cbn [andb orb negb]; unfold bind, util_input, emit, ret;
    rewrite <- ?app_assoc; reflexivity.
Qed.

Lemma action_delete_shows_diff_witness :
  action_delete calm_host false None (lit "1000")
    [sample_target "/repo/a.txt" true true] [] =
  (Ok (Some (sample_target "/repo/a.txt" true true)),
   [Asked diff_prompt (lit "y");
    VimCall (lit "win_getid") [];
    VimCall (lit "easygit#diffPreview") [lit "a.txt"];
    VimCall (lit "win_gotoid") [lit "1000"]]).
Proof.
  refine (action_delete_shows_diff calm_host None (lit "1000")
            (sample_target "/repo/a.txt" true true) [] [] (lit "a.txt") _).
  vm_compute; reflexivity.
Defined.

(** ** The commit action *)

(** X15: when the editor has [:Gcommit], the commit action asks for the
    message and gives the editor [Gcommit -v -m] and the message as it
    was typed; the paths of the selection are not passed on, so the
    outcome is the same for every selection that is not empty. *)
Theorem action_commit_gcommit (h : host) (exists_Gcommit : Z)
  (first : candidate) (rest : list candidate) (t : list effect) :
  exists_Gcommit <> 0%Z ->
  action_commit h exists_Gcommit (first :: rest) t =
  (Ok tt,
   t ++ [Asked commit_prompt [];
         VimCommand (lit "Gcommit -v -m " ++ reply h t commit_prompt [])]).
Proof.
  intros Hn. apply Z.eqb_neq in Hn.
  unfold action_commit. cbn [first_target].
  unfold bind at 1. unfold lift at 1.
  unfold bind at 1. unfold util_input at 1. fold commit_prompt.
  rewrite Hn. cbn [negb]. unfold emit. rewrite <- app_assoc. reflexivity.
Qed.

Lemma action_commit_gcommit_witness :
  action_commit calm_host 2 [sample_target "/repo/a.txt" true false] [] =
  (Ok tt,
   [Asked commit_prompt []; VimCommand (lit "Gcommit -v -m q")]).
Proof.
  apply (action_commit_gcommit calm_host 2
           (sample_target "/repo/a.txt" true false) [] []).
  discriminate.
Defined.

(** X16: without [:Gcommit], for a selection whose candidates all have a
    path, the commit action asks for the message and calls
    [easygit#commit] once, with [-v -m], the message and the candidates'
    paths, separated by spaces; the paths are relative to the root of
    the first candidate and none is absolute.  No process is started. *)
Theorem action_commit_easygit (h : host) (first : candidate)
  (rest : list candidate) (t : list effect) :
  Forall (fun c => action__path c <> []) (first :: rest) ->
  exists ps,
    action_commit h 0 (first :: rest) t =
    (Ok tt,
     t ++ [Asked commit_prompt [];
           VimCall (lit "easygit#commit")
             [join_with (lit " ")
                (lit "-v" :: lit "-m" :: reply h t commit_prompt [] :: ps)]])
    /\ Forall2 (fun c p =>
                  PosixPath.relpath (os_getcwd h) (action__path c)
                    (source__root first) = Ok p
                  /\ PosixPath.isabs p = false)
               (first :: rest) ps.
Proof.
  intros Hne.
  destruct (append_relpaths_relative h (source__root first) (first :: rest)
              [lit "-v"; lit "-m"; reply h t commit_prompt []] Hne)
    as (ps & E & F).
  exists ps; split; [|exact F].
  unfold action_commit. cbn [first_target].
  unfold bind at 1. unfold lift at 1.
  unfold bind at 1. unfold util_input at 1. fold commit_prompt.
  cbn [Z.eqb negb].
  unfold bind at 1. unfold lift at 1. rewrite E.
  unfold emit. rewrite <- app_assoc. reflexivity.
Qed.

Lemma action_commit_easygit_witness :
  exists ps,
    action_commit calm_host 0 [sample_target "/repo/a.txt" true false] [] =
    (Ok tt,
     [] ++ [Asked commit_prompt [];
            VimCall (lit "easygit#commit")
              [join_with (lit " ")
                 (lit "-v" :: lit "-m" :: reply calm_host [] commit_prompt []
                  :: ps)]])
    /\ Forall2 (fun c p =>
                  PosixPath.relpath (os_getcwd calm_host) (action__path c)
                    (lit "/repo") = Ok p
                  /\ PosixPath.isabs p = false)
               [sample_target "/repo/a.txt" true false] ps.
Proof.
  apply (action_commit_easygit calm_host
           (sample_target "/repo/a.txt" true false) [] []).
  repeat constructor; discriminate.
Defined.

(** X17: on an empty selection the add, patch, commit and preview
    actions raise [IndexError] before they do or ask anything, whereas
    the reset action does nothing and ends normally. *)
Theorem empty_selection (h : host) (remove : str) (exists_Gcommit : Z)
  (preview_window : bool) (previewed : option candidate) (prev_id : str)
  (t : list effect) :
  action_add h [] t = (Raise IndexError, t)
  /\ action_patch h [] t = (Raise IndexError, t)
  /\ action_commit h exists_Gcommit [] t = (Raise IndexError, t)
  /\ action_delete h preview_window previewed prev_id [] t
     = (Raise IndexError, t)
  /\ action_reset h remove [] t = (Ok tt, t).
Proof. repeat split. Qed.

(** ** The root lookup, again *)

Lemma find_root_returns (h : host) (fuel : nat) :
  forall (start r : str),
    _find_root h fuel start = Some (Some r) ->
    exists k,
      k < fuel
      /\ r = ancestor k start
      /\ has_git h r = true
      /\ boundary h r = false
      /\ forall j, j < k ->
                   boundary h (ancestor j start) = false
                   /\ has_git h (ancestor j start) = false.
Proof.
  induction fuel as [|fuel IH]; intros start r H; [discriminate|].
  rewrite find_root_step in H.
  destruct (boundary h start) eqn:B; [discriminate|].
  destruct (has_git h start) eqn:G.
  - injection H as <-. exists 0.
    repeat split; [lia | assumption | assumption | lia | lia].
  - destruct (IH _ _ H) as (k & Hk & -> & Hg & Hb & Hbelow).
    exists (S k). repeat split; try assumption; try lia.
    + destruct j as [|j]; [exact B | apply Hbelow; lia].
    + destruct j as [|j]; [exact G | apply Hbelow; lia].
Qed.

(** X18: whatever directory the lookup returns, from any start path, is
    one of the start's ancestors (the start included), holds [.git], is
    neither [/] nor a mount point, and no directory of the walk before it
    holds [.git] or is [/] or a mount point. *)
Theorem find_root_sound (h : host) (fuel : nat) (start r : str) :
  _find_root h fuel start = Some (Some r) ->
  exists k,
    k < fuel
    /\ r = ancestor k start
    /\ has_git h r = true
    /\ boundary h r = false
    /\ forall j, j < k ->
                 boundary h (ancestor j start) = false
                 /\ has_git h (ancestor j start) = false.
Proof. apply find_root_returns. Qed.

Lemma find_root_sound_witness :
  exists k,
    k < 5
    /\ lit "/repo" = ancestor k (lit "/repo/src/lib")
    /\ has_git (sample_host Subprocess.NotStarted [] [lit "/repo/.git"] [])
         (lit "/repo") = true
    /\ boundary (sample_host Subprocess.NotStarted [] [lit "/repo/.git"] [])
         (lit "/repo") = false
    /\ forall j, j < k ->
         boundary (sample_host Subprocess.NotStarted [] [lit "/repo/.git"] [])
           (ancestor j (lit "/repo/src/lib")) = false
         /\ has_git (sample_host Subprocess.NotStarted [] [lit "/repo/.git"] [])
              (ancestor j (lit "/repo/src/lib")) = false.
Proof.
  apply (find_root_sound
           (sample_host Subprocess.NotStarted [] [lit "/repo/.git"] []) 5
           (lit "/repo/src/lib") (lit "/repo")).
  vm_compute; reflexivity.
Defined.

(** X19: the lookup is idempotent: from a directory that it returned, it
    returns that directory again, in its first round. *)
Theorem find_root_idempotent (h : host) (fuel fuel' : nat) (start r : str) :
  _find_root h fuel start = Some (Some r) ->
  _find_root h (S fuel') r = Some (Some r).
Proof.
  intros H.
  destruct (find_root_returns h fuel start r H) as (k & _ & _ & Hg & Hb & _).
  rewrite find_root_step, Hb, Hg. reflexivity.
Qed.

Lemma find_root_idempotent_witness :
  _find_root (sample_host Subprocess.NotStarted [] [lit "/repo/.git"] []) 1
    (lit "/repo") = Some (Some (lit "/repo")).
Proof.
  apply (find_root_idempotent
           (sample_host Subprocess.NotStarted [] [lit "/repo/.git"] []) 5 0
           (lit "/repo/src/lib") (lit "/repo")).
  vm_compute; reflexivity.
Defined.

Lemma initial_slashes_abs (p : str) :
  PosixPath.isabs p = true -> exists n, PosixPath.initial_slashes p = S n.
Proof.
  unfold PosixPath.isabs, startswith, PosixPath.initial_slashes.
  destruct p as [|a [|b [|c r]]]; try discriminate; intros ->.
  - eauto.
  - destruct (char_eqb b PosixPath.sep); eauto.
  - destruct (char_eqb b PosixPath.sep && negb (char_eqb c PosixPath.sep));
      eauto.
Qed.

(** The normal form of an absolute path is absolute. *)
Lemma normpath_abs (p : str) :
  PosixPath.isabs p = true -> PosixPath.isabs (PosixPath.normpath p) = true.
Proof.
  intros H. destruct (initial_slashes_abs p H) as [n E].
  unfold PosixPath.normpath. destruct p as [|a r]; [discriminate|].
  rewrite E. cbn [repeat app]. apply char_eqb_refl.
Qed.

(** X20: when the editor's working directory is an absolute path, on a
    filesystem that reports the root directory as a mount point, the
    lookup that [on_init] starts returns, within as many rounds as the
    normal form of the directory has characters plus one; what it stores
    is absent or a directory that holds [.git]. *)
Theorem on_init_returns (h : host) (fuel : nat) :
  root_mounted h ->
  PosixPath.isabs (vim_eval h (lit "getcwd()")) = true ->
  List.length (PosixPath.normpath (vim_eval h (lit "getcwd()"))) < fuel ->
  on_init h fuel = Some None
  \/ exists r, on_init h fuel = Some (Some r) /\ has_git h r = true.
Proof.
  intros Hroot Habs Hfuel. unfold on_init.
  set (cwd := PosixPath.normpath _) in *.
  destruct (find_root_characterised h Hroot cwd (normpath_abs _ Habs))
    as (k & Hk & _ & Hstop & Hrun).
  rewrite (Hrun fuel ltac:(lia)).
  destruct (boundary h (ancestor k cwd)) eqn:B; [left; reflexivity|].
  right. eexists; split; [reflexivity|].
  destruct Hstop as [Hb|Hg]; [discriminate | exact Hg].
Qed.

Lemma on_init_returns_witness :
  on_init (sample_host Subprocess.NotStarted [] [lit "/repo/.git"] []) 6
  = Some None
  \/ exists r,
       on_init (sample_host Subprocess.NotStarted [] [lit "/repo/.git"] []) 6
       = Some (Some r)
       /\ has_git (sample_host Subprocess.NotStarted [] [lit "/repo/.git"] [])
            r = true.
Proof.
  apply (on_init_returns
           (sample_host Subprocess.NotStarted [] [lit "/repo/.git"] []) 6).
  - apply sample_host_root_mounted.
  - reflexivity.
  - vm_compute; lia.
Defined.

(** ** Relative paths, there and back *)

Section RelpathRoundTrip.

Import PosixPath.

Lemma split_app_sep (a b : str) :
  split sep (a ++ sep :: b) = split sep a ++ split sep b.
Proof.
  induction a as [|x a IH]; cbn [app split].
  - rewrite char_eqb_refl. reflexivity.
  - destruct (char_eqb x sep); rewrite IH; [reflexivity|].
    pose proof (split_not_nil sep a) as N.
    destruct (split sep a); [contradiction | reflexivity].
Qed.

Lemma split_slash_free_id (x : str) :
  slash_free x = true -> split sep x = [x].
Proof.
  induction x as [|c x IH]; cbn [slash_free forallb split]; [reflexivity|].
  intros H. apply andb_true_iff in H as [Hc Hx].
  apply negb_true_iff in Hc. rewrite Hc.
  unfold slash_free in IH. rewrite (IH Hx). reflexivity.
Qed.

Lemma is_name_slash_free (x : str) : is_name x = true -> slash_free x = true.
Proof. unfold is_name. intros H; apply andb_true_iff in H; tauto. Qed.

Lemma simple_name_is_name (x : str) : simple_name x = true -> is_name x = true.
Proof.
  unfold simple_name. intros H.
  apply andb_true_iff in H as [H _]. apply andb_true_iff in H; tauto.
Qed.

Lemma join_with_cons (s x y : str) (r : list str) :
  join_with s (x :: y :: r) = x ++ s ++ join_with s (y :: r).
Proof. reflexivity. Qed.

(** Splitting names joined by slashes gives the names. *)
Lemma split_join_names (names : list str) :
  names <> [] ->
  Forall (fun x => is_name x = true) names ->
  split sep (join_with [sep] names) = names.
Proof.
  intros Hne F. induction F as [|x r Hx F IH]; [contradiction|].
  destruct r as [|y r].
  - apply split_slash_free_id, is_name_slash_free, Hx.
  - rewrite join_with_cons. cbn [app].
    rewrite split_app_sep, IH by discriminate.
    rewrite (split_slash_free_id x (is_name_slash_free x Hx)). reflexivity.
Qed.

Lemma normpath_step_simple (s : nat) (comps : list str) (x : str) :
  simple_name x = true -> normpath_step s comps x = comps ++ [x].
Proof.
  unfold simple_name, is_name, normpath_step. intros H.
  apply andb_true_iff in H as [H Hp]. apply andb_true_iff in H as [H Hc].
  apply andb_true_iff in H as [Hn _].
  apply negb_true_iff in Hp, Hc.
  cbn [str_in existsb]. rewrite Hc, Hp.
  destruct x; [discriminate|]. reflexivity.
Qed.

Lemma normpath_fold_simple (s : nat) (names comps : list str) :
  Forall (fun x => simple_name x = true) names ->
  fold_left (normpath_step s) names comps = comps ++ names.
Proof.
  intros F; revert comps; induction F as [|x r Hx F IH]; intros comps;
    cbn [fold_left].
  - rewrite app_nil_r; reflexivity.
  - rewrite normpath_step_simple by exact Hx.
    rewrite IH, <- app_assoc. reflexivity.
Qed.

Lemma normpath_fold_slashes (a b : nat) (pieces comps : list str) :
  fold_left (normpath_step (S a)) pieces comps
  = fold_left (normpath_step (S b)) pieces comps.
Proof.
  revert comps; induction pieces as [|x r IH]; intros comps; cbn [fold_left];
    [reflexivity|].
  rewrite IH. reflexivity.
Qed.

Lemma Forall_removelast {A} (P : A -> Prop) (l : list A) :
  Forall P l -> Forall P (removelast l).
Proof.
  induction 1 as [|x l Hx F IH]; [constructor|].
  cbn [removelast]. destruct l; [constructor|].
  constructor; assumption.
Qed.

(** What [normpath] keeps are names. *)
Lemma normpath_fold_names (s : nat) (pieces comps : list str) :
  Forall (fun x => slash_free x = true) pieces ->
  Forall (fun x => is_name x = true) comps ->
  Forall (fun x => is_name x = true) (fold_left (normpath_step s) pieces comps).
Proof.
  intros F; revert comps; induction F as [|x r Hx F IH]; intros comps Hc;
    cbn [fold_left]; [exact Hc|].
  apply IH. unfold normpath_step.
  destruct (str_in x [[]; curdir]) eqn:E; [exact Hc|].
  destruct (_ || _).
  - apply Forall_app; split; [exact Hc|]. constructor; [|constructor].
    unfold is_name. rewrite Hx.
    destruct x; [discriminate E | reflexivity].
  - destruct (negb (is_nil comps)); [apply Forall_removelast|]; exact Hc.
Qed.

Lemma kept_components_names (p : str) :
  Forall (fun x => is_name x = true) (kept_components p).
Proof.
  apply normpath_fold_names; [apply split_slash_free | constructor].
Qed.

Lemma components_slashes (k : nat) (p : str) :
  components (repeat sep k ++ p) = components p.
Proof.
  induction k as [|k IH]; [reflexivity|].
  unfold components in *. cbn [repeat app split].
  rewrite char_eqb_refl. cbn [filter is_nil negb]. exact IH.
Qed.

Lemma filter_names (names : list str) :
  Forall (fun x => is_name x = true) names ->
  filter (fun x => negb (is_nil x)) names = names.
Proof.
  induction 1 as [|x r Hx F IH]; [reflexivity|].
  cbn [filter]. unfold is_name in Hx. apply andb_true_iff in Hx as [Hn _].
  rewrite Hn, IH. reflexivity.
Qed.

(** The components of the normal form of an absolute path are what
    [normpath] kept. *)
Lemma components_normpath (p : str) :
  isabs p = true -> components (normpath p) = kept_components p.
Proof.
  intros H. destruct (initial_slashes_abs p H) as [n E].
  unfold normpath. destruct p as [|a r]; [discriminate|].
  rewrite E. cbn [repeat app].
  change (sep :: repeat sep n ++ ?x) with (repeat sep (S n) ++ x).
  rewrite components_slashes.
  rewrite (normpath_fold_slashes n 0). fold (kept_components (a :: r)).
  pose proof (kept_components_names (a :: r)) as F.
  destruct (kept_components (a :: r)) as [|x xs] eqn:K.
  - reflexivity.
  - unfold components. rewrite split_join_names by (discriminate || exact F).
    apply filter_names, F.
Qed.

Lemma endswith_inv (c : char) (s : str) :
  endswith c s = true -> exists r, s = r ++ [c].
Proof.
  induction s as [|x s IH]; [discriminate|].
  destruct s as [|y s].
  - cbn [endswith]. intros H. apply char_eqb_eq in H; subst x.
    exists []; reflexivity.
  - intros H. destruct (IH H) as [r ->]. exists (x :: r); reflexivity.
Qed.

Lemma name_not_abs (x : str) : is_name x = true -> startswith sep x = false.
Proof.
  unfold is_name. intros H. apply andb_true_iff in H as [Hn Hf].
  destruct x as [|c x]; [reflexivity|].
  cbn [slash_free forallb] in Hf. apply andb_true_iff in Hf as [Hc _].
  apply negb_true_iff in Hc. exact Hc.
Qed.

Lemma join_with_names_not_abs (names : list str) :
  names <> [] ->
  Forall (fun x => is_name x = true) names ->
  startswith sep (join_with [sep] names) = false.
Proof.
  intros Hne F. destruct F as [|x r Hx F]; [contradiction|].
  pose proof (name_not_abs x Hx) as N.
  unfold is_name in Hx. apply andb_true_iff in Hx as [Hn _].
  destruct x as [|c x]; [discriminate|].
  destruct r; exact N.
Qed.

(** What [normpath] keeps of a root joined with names is what it keeps
    of the root, and the names. *)
Lemma kept_components_join (root : str) (names : list str) :
  names <> [] ->
  Forall (fun x => simple_name x = true) names ->
  kept_components (join root [join_with [sep] names])
  = kept_components root ++ names.
Proof.
  intros Hne F.
  assert (Fn : Forall (fun x => is_name x = true) names).
  { eapply Forall_impl; [|exact F]. intros x; apply simple_name_is_name. }
  unfold join. cbn [fold_left]. unfold join_step.
  rewrite (join_with_names_not_abs names Hne Fn).
  unfold kept_components.
  destruct root as [|c root].
  - cbn [orb app split fold_left]. rewrite split_join_names by assumption.
    apply normpath_fold_simple, F.
  - cbn [orb]. destruct (endswith sep (c :: root)) eqn:E.
    + destruct (endswith_inv _ _ E) as [r' ->].
      rewrite <- app_assoc. cbn [app].
      rewrite split_app_sep, split_app_sep.
      rewrite split_join_names by assumption.
      rewrite !fold_left_app. cbn [split fold_left].
      change (normpath_step 1 ?l []) with l.
      apply normpath_fold_simple, F.
    + rewrite split_app_sep, split_join_names by assumption.
      rewrite fold_left_app. apply normpath_fold_simple, F.
Qed.

Lemma commonprefix_app (a b : list str) : commonprefix a (a ++ b) = a.
Proof.
  induction a as [|x a IH]; [destruct b; reflexivity|].
  cbn [app commonprefix]. rewrite str_eqb_refl, IH. reflexivity.
Qed.

Lemma name_not_ends (x : str) : is_name x = true -> endswith sep x = false.
Proof.
  unfold is_name. intros H. apply andb_true_iff in H as [_ Hf].
  induction x as [|c x IH]; [reflexivity|].
  cbn [slash_free forallb] in Hf. apply andb_true_iff in Hf as [Hc Hx].
  apply negb_true_iff in Hc.
  destruct x; [exact Hc | apply IH, Hx].
Qed.

Lemma endswith_app (c : char) (a b : str) :
  b <> [] -> endswith c (a ++ b) = endswith c b.
Proof.
  intros Hb. induction a as [|x a IH]; [reflexivity|].
  cbn [app]. destruct (a ++ b) eqn:E.
  - destruct a, b; try discriminate; contradiction.
  - rewrite <- IH. reflexivity.
Qed.

(** Joining names with [join] is joining them with slashes. *)
Lemma join_names (names : list str) :
  Forall (fun x => is_name x = true) names ->
  forall path,
    path <> [] ->
    endswith sep path = false ->
    join path names = join_with [sep] (path :: names).
Proof.
  unfold join.
  induction 1 as [|x r Hx F IH]; intros path Hp He; [reflexivity|].
  cbn [fold_left]. unfold join_step at 2.
  rewrite (name_not_abs x Hx), He.
  destruct path as [|c path]; [contradiction|]. cbn [orb].
  assert (Hx' : x <> []).
  { unfold is_name in Hx. destruct x; [discriminate Hx | discriminate]. }
  rewrite IH.
  - cbn [join_with]. destruct r as [|y r]; cbn [join_with app].
    + reflexivity.
    + rewrite <- app_assoc. reflexivity.
  - discriminate.
  - change ((c :: path) ++ sep :: x) with ((c :: path) ++ (sep :: x)).
    rewrite endswith_app by discriminate.
    change (sep :: x) with ([sep] ++ x).
    rewrite endswith_app by exact Hx'. apply name_not_ends, Hx.
Qed.

End RelpathRoundTrip.

Lemma join_one_abs (root rel : str) :
  PosixPath.isabs root = true ->
  startswith PosixPath.sep rel = false ->
  PosixPath.isabs (PosixPath.join root [rel]) = true.
Proof.
  unfold PosixPath.join. cbn [fold_left]. unfold PosixPath.join_step.
  intros Hr ->. destruct root as [|c root]; [discriminate|].
  destruct (_ || _); exact Hr.
Qed.

Lemma relpath_join_names (cwd root : str) (names : list str) :
  PosixPath.isabs root = true ->
  names <> [] ->
  Forall (fun x => simple_name x = true) names ->
  PosixPath.relpath cwd
    (PosixPath.join root [join_with [PosixPath.sep] names]) root
  = Ok (join_with [PosixPath.sep] names).
Proof.
  intros Habs Hne F.
  assert (Fn : Forall (fun x => is_name x = true) names).
  { eapply Forall_impl; [|exact F]. intros x; apply simple_name_is_name. }
  pose proof (join_one_abs root _ Habs
                (join_with_names_not_abs names Hne Fn)) as Hj.
  pose proof (kept_components_join root names Hne F) as K.
  unfold PosixPath.relpath.
  destruct (PosixPath.join root [join_with [PosixPath.sep] names])
    as [|c p] eqn:J; [discriminate|].
  unfold PosixPath.abspath. rewrite Habs, Hj.
  rewrite !components_normpath by assumption. rewrite K.
  rewrite commonprefix_app, Nat.sub_diag. cbn [repeat app].
  rewrite skipn_app, skipn_all, Nat.sub_diag. cbn [app skipn].
  destruct Fn as [|a r Ha Fr]; [contradiction|].
  rewrite (join_names r Fr a).
  - reflexivity.
  - unfold is_name in Ha. destruct a; [discriminate Ha | discriminate].
  - apply name_not_ends, Ha.
Qed.

(** X21: a path relative to a root comes back: for an absolute root and
    a relative path made of names other than [.] and [..], separated by
    single slashes, making the join of the root and the path relative to
    the root gives the path, whatever the process's working directory. *)
Theorem relpath_join_roundtrip (cwd root : str) (names : list str) :
  PosixPath.isabs root = true ->
  names <> [] ->
  Forall (fun x => simple_name x = true) names ->
  PosixPath.relpath cwd
    (PosixPath.join root [join_with [PosixPath.sep] names]) root
  = Ok (join_with [PosixPath.sep] names).
Proof. apply relpath_join_names. Qed.

Lemma relpath_join_roundtrip_witness :
  PosixPath.relpath (lit "/elsewhere")
    (PosixPath.join (lit "/repo/")
       [join_with [PosixPath.sep] [lit "src"; lit "my file.txt"]])
    (lit "/repo/")
  = Ok (join_with [PosixPath.sep] [lit "src"; lit "my file.txt"]).
Proof.
  apply (relpath_join_roundtrip (lit "/elsewhere") (lit "/repo/")
           [lit "src"; lit "my file.txt"]).
  - reflexivity.
  - discriminate.
  - repeat constructor.
Defined.

Lemma relpath_simple_relative (cwd root rel : str) :
  PosixPath.isabs root = true ->
  simple_relative rel = true ->
  PosixPath.relpath cwd (PosixPath.join root [rel]) root = Ok rel.
Proof.
  intros Habs Hs. unfold simple_relative in Hs.
  rewrite <- (join_split PosixPath.sep rel).
  apply relpath_join_names;
    [exact Habs | apply split_not_nil | apply Forall_forall].
  intros x Hx. apply (proj1 (forallb_forall _ _) Hs x Hx).
Qed.

Lemma append_relpaths_listing (h : host) (root : str) (ls : list str)
  (cs : list candidate) :
  PosixPath.isabs root = true ->
  Forall2 (fun l c => _parse_line l root = Ok c) ls cs ->
  Forall (fun l => simple_relative (slice_from 3 l) = true) ls ->
  forall args,
    append_relpaths h root cs args = Ok (args ++ map (slice_from 3) ls).
Proof.
  intros Habs F2. induction F2 as [|l c ls cs Hc F2 IH]; intros Fs args.
  - cbn [append_relpaths map]. rewrite app_nil_r. reflexivity.
  - inversion Fs as [|? ? Hl Fs']; subst.
    cbn [append_relpaths map].
    destruct (parse_line_fields l root c Hc) as [_ ->].
    rewrite relpath_simple_relative by assumption. cbn [rbind].
    rewrite (IH Fs'), <- app_assoc. reflexivity.
Qed.

(** X22: listing and then staging: when the root is absolute and every
    non-blank line of the status output names, after its first three
    characters, a relative path made of simple names, the add action on
    all the candidates of the listing starts [git add] in the root with,
    as arguments, exactly those paths as git printed them, in order. *)
Theorem listing_then_add (h : host) (root : str) (lines : list str)
  (cs : list candidate) (t : list effect) :
  PosixPath.isabs root = true ->
  forallb (fun l => EMPTY_LINE l || simple_relative (slice_from 3 l)) lines
  = true ->
  gather_lines root lines [] = Ok cs ->
  cs <> [] ->
  snd (action_add h cs t) =
  t ++ [Spawned (lit "git" :: lit "add"
                 :: map (slice_from 3) (filter nonblank lines)) root].
Proof.
  intros Habs Hs G Hne.
  rewrite gather_lines_parse_all in G. apply parse_all_Forall2 in G.
  assert (Fs : Forall (fun l => simple_relative (slice_from 3 l) = true)
                 (filter nonblank lines)).
  { apply Forall_forall. intros l Hl. apply filter_In in Hl as [Hin Hnb].
    pose proof (proj1 (forallb_forall _ _) Hs l Hin) as H.
    cbv beta in H. unfold nonblank in Hnb. apply negb_true_iff in Hnb.
    rewrite Hnb in H. exact H. }
  pose proof (append_relpaths_listing h root _ _ Habs G Fs
                [lit "git"; lit "add"]) as E.
  destruct G as [|l c ls cs' Hc G]; [contradiction|].
  destruct (parse_line_fields l root c Hc) as [Hroot _].
  unfold action_add. cbn [first_target].
  unfold bind at 1. unfold lift at 1. rewrite Hroot.
  unfold bind at 1. unfold lift at 1. rewrite E.
  unfold bind at 1. cbn [app].
  pose proof (run_command_snd h
                (lit "git" :: lit "add" :: map (slice_from 3) (l :: ls))
                root t) as S.
  destruct (run_command h _ root t) as [[out|e] t']; cbn [snd] in *;
    exact S.
Qed.

Lemma listing_then_add_witness :
  snd (action_add calm_host
         [{| word := lit " ~              modified     src/a.txt";
             action__path := lit "/repo/src/a.txt";
             source__root := lit "/repo";
             source__staged := false;
             source__tree := true |}] []) =
  [] ++ [Spawned (lit "git" :: lit "add"
                  :: map (slice_from 3)
                       (filter nonblank [lit " M src/a.txt"; []]))
           (lit "/repo")].
Proof.
  apply (listing_then_add calm_host (lit "/repo") [lit " M src/a.txt"; []]).
  - reflexivity.
  - vm_compute; reflexivity.
  - vm_compute; reflexivity.
  - discriminate.
Defined.
